(** * bulk-sendgrid-mailer: a shallow embedding of sendEmails.js

    The repository holds three revisions of one script:
      - [src/unnamed/part_000]: one send per record, no batching;
      - [src/sendEmails.js]: batches of CONCURRENCY sends, THROTTLE pause;
      - [src/unnamed/part_001]: the same with [parseInt], a log file and an
        unused multi-send branch ([multiSend] is the constant [false]).
    [getCsvInfo] and [sendOneEmail] are textually the same in all three and
    are embedded once.  What differs ([replaceTokens], [init]) lives in the
    modules [Part000], [SendEmails] and [Part001].

    JavaScript strings and Buffers are byte strings here ([string],
    [list byte]), and [toString] on a Buffer keeps the bytes; the pattern of
    the script only looks at ASCII characters.  Numbers are integers ([Z]),
    with [None] for NaN.  The libraries the script calls (csv-parse,
    html-to-text, the provider's client) are parameters. *)

From Stdlib Require Import ZArith String Ascii Strings.Byte List Lia DecimalString.
From stdpp Require Import gmap strings list.

Open Scope Z_scope.

(* ------------------------------------------------------------------ *)
(** ** A small fragment of JavaScript values                           *)
(* ------------------------------------------------------------------ *)

(** The values the loop variables of [init] can hold: [undefined], NaN, a
    boolean, an integer number or a string ([dotenv.parse] yields strings only). *)
Inductive jsval :=
| JUndef
| JNaN
| JBool (b : bool)
| JNum (n : Z)
| JStr (s : string).

#[global] Instance jsval_eq_dec : EqDecision jsval.
Proof. solve_decision. Defined.

(** ToBoolean. *)
Definition truthy (v : jsval) : bool :=
  match v with
  | JUndef | JNaN => false
  | JBool b => b
  | JNum n => negb (n =? 0)
  | JStr s => negb (String.eqb s EmptyString)
  end.

(** ToString of an integer number. *)
Definition NumberToString (n : Z) : string :=
  NilEmpty.string_of_int (Z.to_int n).

Definition ToString (v : jsval) : string :=
  match v with
  | JUndef => "undefined"
  | JNaN => "NaN"
  | JBool b => if b then "true" else "false"
  | JNum n => NumberToString n
  | JStr s => s
  end.

Definition digit_val (c : ascii) : option Z :=
  let n := Z.of_nat (nat_of_ascii c) in
  if (48 <=? n) && (n <=? 57) then Some (n - 48) else None.

(** StrWhiteSpaceChar, ASCII part: TAB, LF, VT, FF, CR, SP. *)
Definition is_space (c : ascii) : bool :=
  let n := Z.of_nat (nat_of_ascii c) in
  ((9 <=? n) && (n <=? 13)) || (n =? 32).

Fixpoint trim_left (s : string) : string :=
  match s with
  | String c r => if is_space c then trim_left r else s
  | EmptyString => EmptyString
  end.

Definition str_rev (s : string) : string :=
  string_of_list_ascii (rev (list_ascii_of_string s)).

Definition trim (s : string) : string :=
  str_rev (trim_left (str_rev (trim_left s))).

(** All of [s] as decimal digits, most significant first. *)
Fixpoint digits_all (acc : Z) (s : string) : option Z :=
  match s with
  | EmptyString => Some acc
  | String c r =>
      match digit_val c with
      | Some d => digits_all (10 * acc + d) r
      | None => None
      end
  end.

(** The longest prefix of [s] made of decimal digits: its value and how many
    digits it has. *)
Fixpoint digits_prefix (acc : Z) (count : nat) (s : string) : Z * nat :=
  match s with
  | String c r =>
      match digit_val c with
      | Some d => digits_prefix (10 * acc + d) (S count) r
      | None => (acc, count)
      end
  | EmptyString => (acc, count)
  end.

Definition unsigned_int (s : string) : option Z :=
  match s with
  | EmptyString => None
  | _ => digits_all 0 s
  end.

(** ToNumber on a string, for integer literals: surrounding white space is
    dropped, the empty string is 0, an optional sign precedes the digits.
    [None] is NaN.  Literals with a fraction, an exponent or a radix prefix
    are outside this integer model and come out as [None]. *)
Definition StringToNumber (s : string) : option Z :=
  match trim s with
  | EmptyString => Some 0
  | String c r =>
      if Ascii.eqb c "+" then unsigned_int r
      else if Ascii.eqb c "-" then Z.opp <$> unsigned_int r
      else unsigned_int (String c r)
  end.

Definition ToNumber (v : jsval) : option Z :=
  match v with
  | JUndef | JNaN => None
  | JBool b => Some (if b then 1 else 0)
  | JNum n => Some n
  | JStr s => StringToNumber s
  end.

(** [parseInt(x, 10)]: [x] is converted to a string, leading white space and
    an optional sign are skipped and the longest run of digits is read;
    no digit at all gives NaN. *)
Definition parseInt (x : jsval) : option Z :=
  let body (r : string) : option Z :=
    match digits_prefix 0 0 r with
    | (_, O) => None
    | (n, S _) => Some n
    end in
  match trim_left (ToString x) with
  | EmptyString => None
  | String c r =>
      if Ascii.eqb c "+" then body r
      else if Ascii.eqb c "-" then Z.opp <$> body r
      else body (String c r)
  end.

(** The binary [+]: concatenation as soon as one operand is a string,
    otherwise the sum of the operands' numeric values. *)
Definition js_add (a b : jsval) : jsval :=
  match a, b with
  | JStr _, _ | _, JStr _ => JStr (ToString a +:+ ToString b)
  | _, _ =>
      match ToNumber a, ToNumber b with
      | Some x, Some y => JNum (x + y)
      | _, _ => JNaN
      end
  end.

(** [a <= b] and [a < b] when at least one operand is a number: both are
    converted with ToNumber, and a NaN makes the comparison false. *)
Definition js_le (a b : jsval) : bool :=
  match ToNumber a, ToNumber b with
  | Some x, Some y => x <=? y
  | _, _ => false
  end.

Definition js_lt (a b : jsval) : bool :=
  match ToNumber a, ToNumber b with
  | Some x, Some y => x <? y
  | _, _ => false
  end.

(** [a || b]. *)
Definition js_or (a b : jsval) : jsval := if truthy a then a else b.

(** [l[i]] for an array [l] and a numeric index. *)
Definition arr_get {A} (l : list A) (i : Z) : option A :=
  if i <? 0 then None else l !! Z.to_nat i.

(** [l[k]] for an arbitrary property key: a number indexes the array, a
    string does when it is the canonical decimal form of an index, anything
    else names no own property of an array of records. *)
Definition arr_get_key {A} (l : list A) (k : jsval) : option A :=
  match k with
  | JNum i => arr_get l i
  | JStr s =>
      match unsigned_int s with
      | Some i => if String.eqb (NumberToString i) s then arr_get l i else None
      | None => None
      end
  | JUndef | JNaN | JBool _ => None
  end.

(** [keys.indexOf(x)]: the first position of [x], or -1. *)
Fixpoint indexOf_from {A} `{EqDecision A} (x : A) (l : list A) (pos : Z) : Z :=
  match l with
  | [] => -1
  | y :: t => if decide (y = x) then pos else indexOf_from x t (pos + 1)
  end.

Definition indexOf {A} `{EqDecision A} (l : list A) (x : A) : Z :=
  indexOf_from x l 0.

(** [arr.join(sep)] on strings. *)
Fixpoint join (sep : string) (l : list string) : string :=
  match l with
  | [] => EmptyString
  | [x] => x
  | x :: t => x +:+ sep +:+ join sep t
  end.

(** [s.slice(1, -1)]: [s] without its first and its last character. *)
Definition slice_1_m1 (s : string) : string :=
  match s with
  | EmptyString => EmptyString
  | String _ r => String.substring 0 (String.length r - 1) r
  end.

(* ------------------------------------------------------------------ *)
(** ** The regular expression /@[a-zA-Z0-9_]*@/g                       *)
(* ------------------------------------------------------------------ *)

(** The character class [[a-zA-Z0-9_]]. *)
Definition is_word (c : ascii) : bool :=
  let n := Z.of_nat (nat_of_ascii c) in
  ((97 <=? n) && (n <=? 122)) || ((65 <=? n) && (n <=? 90))
  || ((48 <=? n) && (n <=? 57)) || (n =? 95).

Definition is_at (c : ascii) : bool := Ascii.eqb c "@".

(** The greedy star: the longest run of class characters and what follows. *)
Fixpoint word_run (s : string) : string * string :=
  match s with
  | String c r =>
      if is_word c then let (w, t) := word_run r in (String c w, t)
      else (EmptyString, s)
  | EmptyString => (EmptyString, EmptyString)
  end.

(** The pattern anchored at the start of [s]; the result is the text between
    the two delimiters.  The class excludes [@], so giving back characters of
    the run never helps and the greedy run decides the match. *)
Definition token_at (s : string) : option string :=
  match s with
  | String c r =>
      if is_at c then
        let (w, t) := word_run r in
        match t with
        | String d _ => if is_at d then Some w else None
        | EmptyString => None
        end
      else None
  | EmptyString => None
  end.

Definition token_text (w : string) : string := "@" +:+ w +:+ "@".

(** What a global scan cuts the subject into: matches and the characters
    between them. *)
Inductive piece :=
| Lit (c : ascii)
| Tok (w : string).

(** The scan of the [g] flag: try the pattern at each position from left to
    right; after a match the search resumes behind it ([skip] counts the
    characters of the current match still to step over). *)
Fixpoint scan (skip : nat) (s : string) : list piece :=
  match s with
  | EmptyString => []
  | String c r =>
      match skip with
      | S k => scan k r
      | O =>
          match token_at s with
          | Some w => Tok w :: scan (S (String.length w)) r
          | None => Lit c :: scan 0 r
          end
      end
  end.

Definition matched_texts (s : string) : list string :=
  omap (fun p => match p with Tok w => Some (token_text w) | Lit _ => None end)
       (scan 0 s).

(** [s.match(re)] with the [g] flag: every matched text, or [null] ([None])
    when there is none. *)
Definition str_match (s : string) : option (list string) :=
  match matched_texts s with
  | [] => None
  | l => Some l
  end.

(** [s.replace(re, f)] with the [g] flag and a callback: each match is
    replaced by the callback's result, which is not scanned again and in
    which [$] has no special meaning. *)
Definition str_replace (f : string -> string) (s : string) : string :=
  String.concat EmptyString
    (map (fun p => match p with
                   | Lit c => String c EmptyString
                   | Tok w => f (token_text w)
                   end) (scan 0 s)).

(* ------------------------------------------------------------------ *)
(** ** Exceptions                                                      *)
(* ------------------------------------------------------------------ *)

Inductive error :=
| Error (msg : string)          (* throw new Error(msg) *)
| TypeError (msg : string)      (* raised by the language itself *)
| Failure (what : string).      (* raised or reported by a collaborator *)

(** How an expression, or an awaited promise, completes. *)
Inductive completion (A : Type) :=
| Normal (a : A)
| Throw (e : error).
Arguments Normal {A} a.
Arguments Throw {A} e.

#[global] Instance completion_ret : MRet completion := fun A a => Normal a.
#[global] Instance completion_bind : MBind completion :=
  fun A B f m => match m with Normal a => f a | Throw e => Throw e end.

(** [try { body } catch { handler }]. *)
Definition try_catch {A} (body : completion A) (handler : error -> completion A)
  : completion A :=
  match body with
  | Normal a => Normal a
  | Throw e => handler e
  end.

(** [await Promise.all(promises)]: the values in order, or the rejection of
    the first promise in the array that rejects. *)
Fixpoint Promise_all {A} (promises : list (completion A)) : completion (list A) :=
  match promises with
  | [] => Normal []
  | p :: rest => a ← p; l ← Promise_all rest; Normal (a :: l)
  end.

Definition of_option (o : option string) : jsval :=
  match o with
  | Some s => JStr s
  | None => JUndef
  end.

(* ------------------------------------------------------------------ *)
(** ** sendOneEmail                                                    *)
(* ------------------------------------------------------------------ *)

(** The provider's response object. *)
Record response := {
  statusCode : Z;
  headers : gmap string string;
}.

(** The argument of [sendOneEmail].  [init] passes one address as [to], not
    an array, so the recipients are the one-element array of it. *)
Record send_config := {
  sc_from : string;
  sc_fromName : string;
  sc_to : jsval;
  sc_subject : string;
  sc_htmlMessage : string;
  sc_plaintextMessage : jsval;
}.

(** The object handed to [sendgridMail.send]. *)
Record message := {
  m_to : list jsval;
  m_from_email : string;
  m_from_name : string;
  m_subject : string;
  m_text : jsval;
  m_html : string;
}.

Section SendOne.

(** [htmlToText] of html-to-text: a total conversion of text. *)
Variable htmlToText : string -> string.

(** [await sendgridMail.send(m)]: it throws, or yields an array whose
    first two entries the caller names [response] and [reject]. *)
Variable send : message -> completion (option response * jsval).

Definition messageObject (config : send_config) : message :=
  let recipients := [sc_to config] in
  {| m_to := recipients;
     m_from_email := sc_from config;
     m_from_name := sc_fromName config;
     m_subject := sc_subject config;
     m_text := js_or (sc_plaintextMessage config)
                     (JStr (htmlToText (sc_htmlMessage config)));
     m_html := sc_htmlMessage config |}.

(** The value the promise of [sendOneEmail(config)] settles with. *)
Definition sendOneEmail (config : send_config) : completion jsval :=
  try_catch
    ('(response, reject) ← send (messageObject config);
     if truthy reject then Normal (JBool false)
     else
       r ← match response with
           | Some r => Normal r
           | None => Throw (TypeError "Cannot read properties of undefined")
           end;
       if negb (statusCode r =? 202) then Normal (JBool false)
       else Normal (of_option (headers r !! "x-message-id")))
    (fun _ => Normal (JBool false)).

End SendOne.

(* ------------------------------------------------------------------ *)
(** ** getCsvInfo                                                      *)
(* ------------------------------------------------------------------ *)

#[global] Instance byte_eq_dec : EqDecision byte := Byte.byte_eq_dec.

(** The byte 10 of [buffer.indexOf(10)]. *)
Definition LF : byte := Byte.x0a.

Fixpoint index_from (value : byte) (l : list byte) (pos : Z) : Z :=
  match l with
  | [] => -1
  | x :: t => if decide (x = value) then pos else index_from value t (pos + 1)
  end.

(** [buffer.indexOf(value, byteOffset)] for [0 <= byteOffset]. *)
Definition buf_indexOf (buffer : list byte) (value : byte) (byteOffset : Z) : Z :=
  index_from value (drop (Z.to_nat byteOffset) buffer) byteOffset.

(** [buffer.slice(0, end)]: a negative [end] counts from the end of the
    buffer, and the bounds are clamped to it. *)
Definition buf_slice0 (buffer : list byte) (end_ : Z) : list byte :=
  let len := Z.of_nat (length buffer) in
  let e := if end_ <? 0 then Z.max 0 (len + end_) else Z.min end_ len in
  take (Z.to_nat e) buffer.

(** The [do ... while (idx !== -1)] loop counting line feeds. *)
Fixpoint count_loop (fuel : nat) (buffer : list byte) (idx recordCount : Z)
  : option Z :=
  match fuel with
  | O => None
  | S fuel' =>
      let idx := buf_indexOf buffer LF (idx + 1) in
      let recordCount := recordCount + 1 in
      if negb (idx =? -1) then count_loop fuel' buffer idx recordCount
      else Some recordCount
  end.

Record csv_info := {
  columnNames : list string;
  recordCount : Z;
}.

(** What a read stream emits: [data] events, then [end] or [error]. *)
Inductive stream_end :=
| OnEnd
| OnError (e : error).

Record stream := {
  chunks : list (list byte);
  ending : stream_end;
}.

(** The promise of [getCsvInfo]: resolved, rejected, or left pending because
    an exception escaped the [data] handler (nothing catches it). *)
Inductive settled (A : Type) :=
| Resolved (a : A)
| Rejected (e : error)
| Uncaught (e : error).
Arguments Resolved {A} a.
Arguments Rejected {A} e.
Arguments Uncaught {A} e.

Section CsvInfo.

(** [parse] of csv-parse/sync: the records of a text, or an exception. *)
Variable parse : string -> completion (list (list string)).

(** The [data] handler, on the state [(columnNames, recordCount)].  The
    loop gets one step per byte and one more, which always suffices
    ([count_loop_fuel]). *)
Definition on_data (st : list string * Z) (buffer : list byte)
  : completion (list string * Z) :=
  let '(columnNames, recordCount) := st in
  columnNames ←
    (if bool_decide (columnNames = []) then
       let headerRow :=
         string_of_list_byte (buf_slice0 buffer (buf_indexOf buffer LF 0)) in
       records ← parse headerRow;
       match records !! 0%nat with
       | Some first => Normal (columnNames ++ first)
       | None => Throw (TypeError "undefined is not iterable")
       end
     else Normal columnNames);
  let recordCount := recordCount - 1 in
  Normal (columnNames,
          default recordCount
            (count_loop (S (length buffer)) buffer (-1) recordCount)).

Fixpoint feed (st : list string * Z) (bufs : list (list byte))
  : completion (list string * Z) :=
  match bufs with
  | [] => Normal st
  | buffer :: rest => st' ← on_data st buffer; feed st' rest
  end.

Definition getCsvInfo (file : stream) : settled csv_info :=
  match feed ([], 0) (chunks file) with
  | Throw e => Uncaught e
  | Normal (columnNames, recordCount) =>
      match ending file with
      | OnEnd => Resolved {| columnNames := columnNames;
                             recordCount := recordCount - 1 |}
      | OnError e => Rejected e
      end
  end.

End CsvInfo.

(** *** A stand-in for csv-parse on plain input

    Records are separated by line feeds, a final line feed closes the last
    record instead of opening an empty one, and fields are separated by
    commas.  This is what csv-parse does with its default options on text
    without quotes or carriage returns, which is all the examples below
    feed it; it is used for examples only. *)

Fixpoint split_on (sep : ascii) (cur : string) (s : string) : list string :=
  match s with
  | EmptyString => [str_rev cur]
  | String c r =>
      if Ascii.eqb c sep then str_rev cur :: split_on sep EmptyString r
      else split_on sep (String c cur) r
  end.

Definition split_lines (s : string) : list string :=
  match s with
  | EmptyString => []
  | _ =>
      let ls := split_on "010" EmptyString s in   (* the line feed *)
      match last ls with
      | Some EmptyString => removelast ls
      | _ => ls
      end
  end.

Definition csv_plain (s : string) : completion (list (list string)) :=
  Normal (map (split_on "," EmptyString) (split_lines s)).


(* ------------------------------------------------------------------ *)
(** ** replaceTokens                                                   *)
(* ------------------------------------------------------------------ *)

(** [replaceTokens] of sendEmails.js and of part_001: the callback falls
    back on the matched text when the looked-up value is falsy. *)
Definition replaceTokens (input : string) (keys values : list string) : string :=
  str_replace
    (fun match_ =>
       ToString (js_or (of_option (arr_get values (indexOf keys (slice_1_m1 match_))))
                       (JStr match_)))
    input.

Module Part000.

(** [replaceTokens] of part_000: no fallback, so a value that is not there
    is inserted as the text of [undefined]. *)
Definition replaceTokens (input : string) (keys values : list string) : string :=
  str_replace
    (fun match_ =>
       ToString (of_option (arr_get values (indexOf keys (slice_1_m1 match_)))))
    input.

End Part000.

(* ------------------------------------------------------------------ *)
(** ** init: template check                                            *)
(* ------------------------------------------------------------------ *)

(** The [forEach] that sorts the tokens found into [usedTokens] and
    [unavailableTokens]. *)
Definition sort_tokens (columnNames : list string) (tokensFound : list string)
  : list string * list string :=
  foldl (fun '(usedTokens, unavailableTokens) tokenName =>
           if indexOf columnNames (slice_1_m1 tokenName) =? -1
           then (usedTokens, unavailableTokens ++ [tokenName])
           else (usedTokens ++ [tokenName], unavailableTokens))
        ([], []) tokensFound.

Definition unavailable_message (unavailableTokens : list string) : string :=
  "Some tokens used in the template file or subject line are not available in the CSV: "
  +:+ join ", " unavailableTokens.

Definition null_forEach : error :=
  TypeError "Cannot read properties of null (reading 'forEach')".

(** "Check Template": [match] yields [null] when nothing matches, and
    [forEach] is then called on [null]. *)
Definition check_template (SUBJECT_LINE templateFileContents : string)
    (columnNames : list string) : completion (list string) :=
  match str_match (SUBJECT_LINE +:+ templateFileContents) with
  | None => Throw null_forEach
  | Some tokensFoundInTemplate =>
      let '(usedTokens, unavailableTokens) :=
        sort_tokens columnNames tokensFoundInTemplate in
      if negb (Z.of_nat (length unavailableTokens) =? 0)
      then Throw (Error (unavailable_message unavailableTokens))
      else Normal usedTokens
  end.

(* ------------------------------------------------------------------ *)
(** ** init: the batch loop                                            *)
(* ------------------------------------------------------------------ *)

(** What the reporting [forEach] is handed for one send: sendEmails.js
    iterates over [responseArray], the promises themselves; part_001 over
    [resolvedResponses], the values they settled with. *)
Inductive reported :=
| Promise (v : jsval)
| Value (v : jsval).

Definition reported_truthy (r : reported) : bool :=
  match r with
  | Promise _ => true
  | Value v => truthy v
  end.

Definition reported_ToString (r : reported) : string :=
  match r with
  | Promise _ => "[object Promise]"
  | Value v => ToString v
  end.

(** One report line: index, total, address and, for a success, the id. *)
Inductive report :=
| Sent (index : jsval) (total : Z) (address : jsval) (id : string)
| NotSent (index : jsval) (total : Z) (address : jsval).

(** One turn of the outer loop, in the order the code runs it: the pause,
    the sends started for [j = 0, 1, ...], the values they settle with, and
    the report lines. *)
Record batch_run := {
  b_index : jsval;
  b_delay : option jsval;
  b_sends : list message;
  b_outcomes : list jsval;
  b_reports : list report;
}.

(** The files and answers [init] works from: the parsed config file, the CSV
    file as the read stream delivers it, the template text and the answer to
    the confirmation prompt. *)
Record world := {
  configFile : gmap string string;
  csvFile : stream;
  templateFile : string;
  confirmed : bool;
}.

Inductive outcome :=
| Exited                                  (* 'Exiting without action' *)
| Completed (batches : list batch_run).

Definition dquote : string := String (ascii_of_nat 34) EmptyString.

Definition js_num (o : option Z) : jsval :=
  match o with
  | Some n => JNum n
  | None => JNaN
  end.

Definition defaults_throttle : Z := 0.
Definition defaults_concurrency : Z := 1.

Section Init.

Variable htmlToText : string -> string.
Variable send : message -> completion (option response * jsval).
Variable parse : string -> completion (list (list string)).

(** [Promise] in sendEmails.js, [Value] in part_001. *)
Variable iterate : jsval -> reported.

Section Loop.

Variables (SUBJECT_LINE FROM_NAME FROM_ADDRESS : string).
Variables (throttle concurrency : jsval).
Variables (columnNames : list string) (recordCount emailColumnIndex : Z).
Variables (templateFileContents : string).
Variable (csvFileContents : list (list string)).

Definition send_config_of (currentRecord : list string) : send_config :=
  {| sc_from := FROM_ADDRESS;
     sc_fromName := FROM_NAME;
     sc_to := of_option (arr_get currentRecord emailColumnIndex);
     sc_subject := replaceTokens SUBJECT_LINE columnNames currentRecord;
     sc_htmlMessage :=
       replaceTokens templateFileContents columnNames currentRecord;
     sc_plaintextMessage := JUndef |}.

(** The values of [j] in [for (let j = 0; j < concurrency; j++)]. *)
Definition inner_range : list Z :=
  match ToNumber concurrency with
  | Some k => seqZ 0 k
  | None => []
  end.

(** The records [csvFileContents[i + j]] that are there. *)
Definition batch_records (i : jsval) : list (list string) :=
  omap (fun j => arr_get_key csvFileContents (js_add i (JNum j))) inner_range.

Definition report_line (i : jsval) (addressArray : list jsval)
    (index : nat) (value : reported) : report :=
  let address := default JUndef (addressArray !! index) in
  if reported_truthy value
  then Sent (js_add i (JNum (Z.of_nat index))) recordCount address
            (reported_ToString value)
  else NotSent (js_add i (JNum (Z.of_nat index))) recordCount address.

Definition batch (i : jsval) : completion batch_run :=
  let records := batch_records i in
  let addressArray :=
    map (fun currentRecord => of_option (arr_get currentRecord emailColumnIndex))
        records in
  let responseArray :=
    map (fun currentRecord => sendOneEmail htmlToText send (send_config_of currentRecord))
        records in
  resolvedResponses ← Promise_all responseArray;
  Normal {| b_index := i;
            b_delay := if truthy throttle then Some throttle else None;
            b_sends := map (fun r => messageObject htmlToText (send_config_of r)) records;
            b_outcomes := resolvedResponses;
            b_reports := imap (report_line i addressArray)
                              (map iterate resolvedResponses) |}.

(** [for (let i = 1; i <= recordCount; i += concurrency)], started at
    [i]; [None] when [fuel] turns do not reach the end of the loop. *)
Fixpoint loop (fuel : nat) (i : jsval) : option (completion (list batch_run)) :=
  match fuel with
  | O => None
  | S fuel' =>
      if js_le i (JNum recordCount) then
        match batch i with
        | Throw e => Some (Throw e)
        | Normal b =>
            match loop fuel' (js_add i concurrency) with
            | Some (Normal bs) => Some (Normal (b :: bs))
            | other => other
            end
        end
      else Some (Normal [])
  end.

End Loop.

(** [init] from "Check configuration" on, given how the revision reads
    THROTTLE and CONCURRENCY.  The steps before it (API key, file names,
    file existence) only guard the environment. *)
Definition init_with (read_setting : jsval -> Z -> jsval)
    (fuel : nat) (w : world) : option (completion outcome) :=
  let config := configFile w in
  let setting (k : string) := of_option (config !! k) in
  if negb (truthy (setting "SUBJECT_LINE")) || negb (truthy (setting "FROM_NAME"))
     || negb (truthy (setting "FROM_ADDRESS"))
  then Some (Throw (Error "Config file must contain: SUBJECT_LINE, FROM_NAME, FROM_ADDRESS"))
  else
    let SUBJECT_LINE := ToString (setting "SUBJECT_LINE") in
    let throttle := read_setting (setting "THROTTLE") defaults_throttle in
    let concurrency := read_setting (setting "CONCURRENCY") defaults_concurrency in
    match getCsvInfo parse (csvFile w) with
    | Rejected e | Uncaught e => Some (Throw e)
    | Resolved info =>
        let emailColumnIndex := indexOf (columnNames info) "Email" in
        if emailColumnIndex =? -1
        then Some (Throw (Error ("CSV file does not have a column matching the expected name of " +:+ dquote +:+ "Email" +:+ dquote)))
        else
          match check_template SUBJECT_LINE (templateFile w) (columnNames info) with
          | Throw e => Some (Throw e)
          | Normal usedTokens =>
              if negb (confirmed w) then Some (Normal Exited)
              else
                match parse (string_of_list_byte (concat (chunks (csvFile w)))) with
                | Throw e => Some (Throw e)
                | Normal csvFileContents =>
                    match loop SUBJECT_LINE (ToString (setting "FROM_NAME"))
                               (ToString (setting "FROM_ADDRESS"))
                               throttle concurrency (columnNames info)
                               (recordCount info) emailColumnIndex
                               (templateFile w) csvFileContents fuel (JNum 1) with
                    | None => None
                    | Some (Throw e) => Some (Throw e)
                    | Some (Normal batches) => Some (Normal (Completed batches))
                    end
                end
          end
    end.

End Init.

Module SendEmails.

(** [config.X || defaults.x]: the setting stays the string of the file. *)
Definition read_setting (v : jsval) (dflt : Z) : jsval := js_or v (JNum dflt).

Definition init htmlToText send parse : nat -> world -> option (completion outcome) :=
  init_with htmlToText send parse Promise read_setting.

End SendEmails.

Module Part001.

(** [parseInt(config.X, 10) || defaults.x]. *)
Definition read_setting (v : jsval) (dflt : Z) : jsval :=
  js_or (js_num (parseInt v)) (JNum dflt).

Definition init htmlToText send parse : nat -> world -> option (completion outcome) :=
  init_with htmlToText send parse Value read_setting.

End Part001.


(** The errors of the checks. *)
Definition missing_setting_error : error :=
  Error "Config file must contain: SUBJECT_LINE, FROM_NAME, FROM_ADDRESS".

Definition missing_email_error : error :=
  Error ("CSV file does not have a column matching the expected name of "
         +:+ dquote +:+ "Email" +:+ dquote).

(* ------------------------------------------------------------------ *)
(** ** init: set-up                                                    *)
(* ------------------------------------------------------------------ *)

(** What the first part of [init] reads: the environment variable with the
    API key, the answer of the provider to the request that tests a key, the
    command line and which files exist. *)
Record environment := {
  SENDGRID_API_KEY : jsval;
  key_test : string -> completion (option response * jsval);
  argv : list string;
  existsSync : string -> bool;
}.

Definition arguments_error : error :=
  Error "Must provide config file, CSV file, and template file as first three arguments".

Definition key_test_error : error := Error "SendGrid API key test failed".

(** "Collect the filenames" of sendEmails.js and part_001: one argument is
    a base name for the three default places, three arguments are the three
    files. *)
Definition file_names (argv : list string) : completion (string * string * string) :=
  let configFileName := of_option (argv !! 2%nat) in
  let csvFileName := of_option (argv !! 3%nat) in
  let templateFileName := of_option (argv !! 4%nat) in
  if truthy configFileName && negb (truthy csvFileName)
     && negb (truthy templateFileName)
  then
    let filenameBase := ToString configFileName in
    Normal ("config/" +:+ filenameBase +:+ ".env",
            "data/" +:+ filenameBase +:+ ".csv",
            "templates/" +:+ filenameBase +:+ ".html")
  else if negb (truthy configFileName) || negb (truthy csvFileName)
          || negb (truthy templateFileName)
  then Throw arguments_error
  else Normal (ToString configFileName, ToString csvFileName,
               ToString templateFileName).

(** "Check that our files look okay". *)
Definition check_files (exists_ : string -> bool) (names : string * string * string)
  : completion (string * string * string) :=
  let '(configFileName, csvFileName, templateFileName) := names in
  if negb (exists_ configFileName)
  then Throw (Error "config file could not be found")
  else if negb (exists_ csvFileName)
  then Throw (Error "csv file could not be found")
  else if negb (exists_ templateFileName)
  then Throw (Error "template file could not be found")
  else Normal names.

(** [init] of sendEmails.js and part_001 up to "Check configuration": the
    key must be set and pass its test, the file names are collected, the
    files must exist.  The test of [process], which node always defines, is
    left out, and so is the log file that part_001 opens in between. *)
Definition set_up (env : environment) : completion (string * string * string) :=
  if negb (truthy (SENDGRID_API_KEY env))
  then Throw (Error "No SENDGRID_API_KEY env variable found")
  else
    _ ← try_catch
          ('(sendgridTestResponse, sendgridTestBody) ←
             key_test env (ToString (SENDGRID_API_KEY env));
           r ← match sendgridTestResponse with
               | Some r => Normal r
               | None => Throw (TypeError "Cannot read properties of undefined")
               end;
           if negb (statusCode r =? 200) then Throw key_test_error
           else Normal tt)
          (fun _ => Throw key_test_error);
    names ← file_names (argv env);
    check_files (existsSync env) names.

(* ------------------------------------------------------------------ *)
(** ** part_000: init                                                  *)
(* ------------------------------------------------------------------ *)

Definition undefined_record : error :=
  TypeError "Cannot read properties of undefined".

Definition undefined_replace : error :=
  TypeError "Cannot read properties of undefined (reading 'replace')".

Module Part000Script.

(** The argument of [sendOneEmail] and the object handed to the provider.
    part_000 does not check the config file, so sender name and address may
    be [undefined]. *)
Record send_config := {
  sc_from : jsval;
  sc_fromName : jsval;
  sc_to : jsval;
  sc_subject : string;
  sc_htmlMessage : string;
  sc_plaintextMessage : jsval;
}.

Record message := {
  m_to : list jsval;
  m_from_email : jsval;
  m_from_name : jsval;
  m_subject : string;
  m_text : jsval;
  m_html : string;
}.

(** One turn of the loop: the message, what the send settled with, and the
    report line. *)
Definition step : Type := message * jsval * report.

(** How [init] ends once the checks are passed: the operator declined, or
    the loop ran; [crash] is the exception that ended the loop, and with it
    [init], after the [steps] made before. *)
Inductive outcome :=
| Exited
| Ran (steps : list step) (crash : option error).

(** All three arguments are needed. *)
Definition file_names (argv : list string) : completion (string * string * string) :=
  let configFileName := of_option (argv !! 2%nat) in
  let csvFileName := of_option (argv !! 3%nat) in
  let templateFileName := of_option (argv !! 4%nat) in
  if negb (truthy configFileName) || negb (truthy csvFileName)
     || negb (truthy templateFileName)
  then Throw arguments_error
  else Normal (ToString configFileName, ToString csvFileName,
               ToString templateFileName).

(** [replaceTokens(input, ...)] where [input] may be [undefined]. *)
Definition replaceTokens_of (input : jsval) (keys values : list string)
  : completion string :=
  match input with
  | JStr text => Normal (Part000.replaceTokens text keys values)
  | _ => Throw undefined_replace
  end.

Section Run.

Variable htmlToText : string -> string.
Variable send : message -> completion (option response * jsval).
Variable parse : string -> completion (list (list string)).

Definition messageObject (config : send_config) : message :=
  let recipients := [sc_to config] in
  {| m_to := recipients;
     m_from_email := sc_from config;
     m_from_name := sc_fromName config;
     m_subject := sc_subject config;
     m_text := js_or (sc_plaintextMessage config)
                     (JStr (htmlToText (sc_htmlMessage config)));
     m_html := sc_htmlMessage config |}.

Definition sendOneEmail (config : send_config) : completion jsval :=
  try_catch
    ('(response, reject) ← send (messageObject config);
     if truthy reject then Normal (JBool false)
     else
       r ← match response with
           | Some r => Normal r
           | None => Throw (TypeError "Cannot read properties of undefined")
           end;
       if negb (statusCode r =? 202) then Normal (JBool false)
       else Normal (of_option (headers r !! "x-message-id")))
    (fun _ => Normal (JBool false)).

Section Loop.

Variable (config : gmap string string).
Variables (columnNames : list string) (recordCount emailColumnIndex : Z).
Variables (templateFileContents : string).
Variable (csvFileContents : list (list string)).

(** The body of the loop for one [i]: reading a field of a record that is
    not there throws, and so does substituting into a subject line that is
    not there. *)
Definition send_record (i : Z) : completion step :=
  match arr_get csvFileContents i with
  | None => Throw undefined_record
  | Some currentRecord =>
      let address := of_option (arr_get currentRecord emailColumnIndex) in
      subject ← replaceTokens_of (of_option (config !! "SUBJECT_LINE"))
                                 columnNames currentRecord;
      let cfg :=
        {| sc_from := of_option (config !! "FROM_ADDRESS");
           sc_fromName := of_option (config !! "FROM_NAME");
           sc_to := address;
           sc_subject := subject;
           sc_htmlMessage :=
             Part000.replaceTokens templateFileContents columnNames currentRecord;
           sc_plaintextMessage := JUndef |} in
      emailId ← sendOneEmail cfg;
      Normal (messageObject cfg, emailId,
              if truthy emailId
              then Sent (JNum i) recordCount address (ToString emailId)
              else NotSent (JNum i) recordCount address)
  end.

(** The turns of the loop, one after the other, up to the first that
    throws. *)
Fixpoint run (indices : list Z) : list step * option error :=
  match indices with
  | [] => ([], None)
  | i :: rest =>
      match send_record i with
      | Throw e => ([], Some e)
      | Normal st => let '(steps, crash) := run rest in (st :: steps, crash)
      end
  end.

End Loop.

(** [init] of part_000 from "Check configuration" on; the loop is
    [for (let i = 1; i <= recordCount; i++)]. *)
Definition init (w : world) : completion outcome :=
  let config := configFile w in
  match getCsvInfo parse (csvFile w) with
  | Rejected e | Uncaught e => Throw e
  | Resolved info =>
      let emailColumnIndex := indexOf (columnNames info) "Email" in
      if emailColumnIndex =? -1 then Throw missing_email_error
      else
        match check_template (ToString (of_option (config !! "SUBJECT_LINE")))
                             (templateFile w) (columnNames info) with
        | Throw e => Throw e
        | Normal usedTokens =>
            if negb (confirmed w) then Normal Exited
            else
              match parse (string_of_list_byte (concat (chunks (csvFile w)))) with
              | Throw e => Throw e
              | Normal csvFileContents =>
                  let '(steps, crash) :=
                    run config (columnNames info) (recordCount info)
                        emailColumnIndex (templateFile w) csvFileContents
                        (seqZ 1 (recordCount info)) in
                  Normal (Ran steps crash)
              end
        end
  end.

(** [init] up to "Check configuration": no test of the key. *)
Definition set_up (env : environment) : completion (string * string * string) :=
  if negb (truthy (SENDGRID_API_KEY env))
  then Throw (Error "No SENDGRID_API_KEY env variable found")
  else names ← file_names (argv env); check_files (existsSync env) names.

End Run.

End Part000Script.

(* ------------------------------------------------------------------ *)
(** ** Specification-side notions                                      *)
(* ------------------------------------------------------------------ *)

(** [w] consists of characters of the class only. *)
Fixpoint all_word (w : string) : bool :=
  match w with
  | EmptyString => true
  | String c r => is_word c && all_word r
  end.

(** [s] contains an occurrence of the pattern [@name@]. *)
Definition has_token (s : string) : Prop :=
  exists pre w post, s = pre +:+ token_text w +:+ post /\ all_word w = true.

Fixpoint no_at (s : string) : bool :=
  match s with
  | EmptyString => true
  | String c r => negb (is_at c) && no_at r
  end.

(** The text of a string, one literal piece per character. *)
Fixpoint lits (s : string) : list piece :=
  match s with
  | EmptyString => []
  | String c r => Lit c :: lits r
  end.

(** The number of line feeds in a buffer. *)
Definition count_LF (buffer : list byte) : Z :=
  Z.of_nat (length (filter (fun b => b = LF) buffer)).

(** The value [sendOneEmail] settles with, read off the provider's answer. *)
Definition settle (answer : completion (option response * jsval)) : jsval :=
  match answer with
  | Normal (Some r, reject) =>
      if truthy reject then JBool false
      else if statusCode r =? 202 then of_option (headers r !! "x-message-id")
      else JBool false
  | Normal (None, _) => JBool false
  | Throw _ => JBool false
  end.

(** What [replaceTokens] puts in the place of the token named [w]. *)
Definition expansion (keys values : list string) (w : string) : string :=
  match arr_get values (indexOf keys w) with
  | Some v => if String.eqb v EmptyString then token_text w else v
  | None => token_text w
  end.

(** A file in which every line, the last one too, ends in a line feed. *)
Definition terminated (lines : list (list byte)) : list byte :=
  concat (map (fun line => line ++ [LF]) lines).

(** A file whose lines are separated by line feeds, with none after the
    last line. *)
Fixpoint separated (lines : list (list byte)) : list byte :=
  match lines with
  | [] => []
  | [line] => line
  | line :: rest => line ++ LF :: separated rest
  end.

(** *** Templates written as segments

    A text given as its pieces: stretches without [@] and tokens. *)
Inductive segment :=
| Plain (text : string)
| Token (name : string).

Definition segment_ok (g : segment) : bool :=
  match g with
  | Plain text => no_at text
  | Token name => all_word name
  end.

Fixpoint render (segments : list segment) : string :=
  match segments with
  | [] => EmptyString
  | Plain text :: rest => text +:+ render rest
  | Token name :: rest => token_text name +:+ render rest
  end.

(** The text with every token replaced by its expansion. *)
Fixpoint expand (keys values : list string) (segments : list segment) : string :=
  match segments with
  | [] => EmptyString
  | Plain text :: rest => text +:+ expand keys values rest
  | Token name :: rest => expansion keys values name +:+ expand keys values rest
  end.

Definition token_names (segments : list segment) : list string :=
  omap (fun g => match g with Token name => Some name | Plain _ => None end)
       segments.

(** The text a piece of a scan stands for. *)
Definition piece_text (p : piece) : string :=
  match p with
  | Lit c => String c EmptyString
  | Tok w => token_text w
  end.

(** *** Runs that reach the loop *)

(** The checks of [init] pass on [w]: the three settings are there, the
    scan of the CSV file resolves with [info], it has a column Email, the
    template check passes, the operator confirms, and the whole file parses
    into [csv]. *)
Definition reaches_loop (parse : string -> completion (list (list string)))
    (w : world) (info : csv_info) (csv : list (list string)) : Prop :=
  truthy (of_option (configFile w !! "SUBJECT_LINE")) = true
  /\ truthy (of_option (configFile w !! "FROM_NAME")) = true
  /\ truthy (of_option (configFile w !! "FROM_ADDRESS")) = true
  /\ getCsvInfo parse (csvFile w) = Resolved info
  /\ indexOf (columnNames info) "Email" <> -1
  /\ (exists usedTokens,
        check_template (ToString (of_option (configFile w !! "SUBJECT_LINE")))
                       (templateFile w) (columnNames info) = Normal usedTokens)
  /\ confirmed w = true
  /\ parse (string_of_list_byte (concat (chunks (csvFile w)))) = Normal csv.

(** The message [init] builds for a record of the file. *)
Definition message_for (htmlToText : string -> string) (w : world)
    (info : csv_info) (currentRecord : list string) : message :=
  messageObject htmlToText
    (send_config_of (ToString (of_option (configFile w !! "SUBJECT_LINE")))
       (ToString (of_option (configFile w !! "FROM_NAME")))
       (ToString (of_option (configFile w !! "FROM_ADDRESS")))
       (columnNames info) (indexOf (columnNames info) "Email")
       (templateFile w) currentRecord).

(** The number of turns of [for (i = start; i <= recordCount;
    i += concurrency)] on numbers, for [concurrency >= 1]. *)
Definition turns (start recordCount concurrency : Z) : nat :=
  Z.to_nat ((recordCount - start + concurrency) / concurrency).

(** The rows of the batch that starts at row [i]. *)
Definition rows_at (csv : list (list string)) (i concurrency : Z)
  : list (list string) :=
  take (Z.to_nat concurrency) (drop (Z.to_nat i) csv).

(** *** part_000: what a turn of the loop yields for a row *)

Definition step_for (htmlToText : string -> string)
    (send : Part000Script.message -> completion (option response * jsval))
    (w : world) (info : csv_info) (subject : string)
    (i : Z) (currentRecord : list string) : Part000Script.step :=
  let address :=
    of_option (arr_get currentRecord (indexOf (columnNames info) "Email")) in
  let html :=
    Part000.replaceTokens (templateFile w) (columnNames info) currentRecord in
  let m :=
    {| Part000Script.m_to := [address];
       Part000Script.m_from_email := of_option (configFile w !! "FROM_ADDRESS");
       Part000Script.m_from_name := of_option (configFile w !! "FROM_NAME");
       Part000Script.m_subject :=
         Part000.replaceTokens subject (columnNames info) currentRecord;
       Part000Script.m_text := JStr (htmlToText html);
       Part000Script.m_html := html |} in
  let emailId := settle (send m) in
  (m, emailId,
   if truthy emailId
   then Sent (JNum i) (recordCount info) address (ToString emailId)
   else NotSent (JNum i) (recordCount info) address).

(** *** Example data *)

Definition bytes (s : string) : list byte := list_byte_of_string s.

Definition whole_file (content : string) : stream :=
  {| chunks := [bytes content]; ending := OnEnd |}.

(** Seven records; the provider throws for the fourth and accepts every
    other message with status 202 and an id made from the address. *)
Definition seven_records : string := "Name,Email
r1,r1@x.org
r2,r2@x.org
r3,r3@x.org
r4,r4@x.org
r5,r5@x.org
r6,r6@x.org
r7,r7@x.org
".

Definition accepted (m : message) : completion (option response * jsval) :=
  Normal (Some {| statusCode := 202;
                  headers := {[ "x-message-id" :=
                                  "id-" +:+ ToString (default JUndef (m_to m !! 0%nat)) ]} |},
          JStr EmptyString).

Definition fails_for_r4 (m : message) : completion (option response * jsval) :=
  if bool_decide (m_to m = [JStr "r4@x.org"]) then Throw (Failure "provider")
  else accepted m.

Definition base_config : gmap string string :=
  {[ "SUBJECT_LINE" := "Hi @Name@"; "FROM_NAME" := "Me";
     "FROM_ADDRESS" := "me@x.org" ]}.

Definition seven_world (config : gmap string string) : world :=
  {| configFile := config;
     csvFile := whole_file seven_records;
     templateFile := "<p>Dear @Name@ at @Email@</p>";
     confirmed := true |}.

Definition accepted0 (m : Part000Script.message)
  : completion (option response * jsval) :=
  Normal (Some {| statusCode := 202; headers := {[ "x-message-id" := "id" ]} |},
          JStr EmptyString).

(** What the scan and the parser make of [seven_records]. *)
Definition seven_info : csv_info :=
  {| columnNames := ["Name"; "Email"]; recordCount := 7 |}.

Definition seven_rows : list (list string) :=
  [["Name"; "Email"]; ["r1"; "r1@x.org"]; ["r2"; "r2@x.org"]; ["r3"; "r3@x.org"];
   ["r4"; "r4@x.org"]; ["r5"; "r5@x.org"]; ["r6"; "r6@x.org"]; ["r7"; "r7@x.org"]].

(** The batches of a run that went through the whole loop. *)
Definition completed (r : option (completion outcome)) : option (list batch_run) :=
  match r with
  | Some (Normal (Completed batches)) => Some batches
  | _ => None
  end.

(** What a run did apart from what the provider answered: how it ended and
    which messages each batch handed to the provider. *)
Definition attempted (r : option (completion outcome))
  : option (completion (option (list (list message)))) :=
  match r with
  | None => None
  | Some (Throw e) => Some (Throw e)
  | Some (Normal Exited) => Some (Normal None)
  | Some (Normal (Completed batches)) => Some (Normal (Some (map b_sends batches)))
  end.

(** [groups] cuts [l] into consecutive groups of [c] elements, the last of
    which may be shorter: together they are [l], in order. *)
Inductive partitioned {A} (c : nat) : list A -> list (list A) -> Prop :=
| partitioned_nil : partitioned c [] []
| partitioned_last (g : list A) :
    g <> [] -> (length g <= c)%nat -> partitioned c g [g]
| partitioned_full (g rest : list A) (groups : list (list A)) :
    length g = c -> rest <> [] -> partitioned c rest groups ->
    partitioned c (g ++ rest) (g :: groups).

(** The same for the loop alone. *)
Definition loop_sends (r : option (completion (list batch_run)))
  : option (completion (list (list message))) :=
  match r with
  | None => None
  | Some (Throw e) => Some (Throw e)
  | Some (Normal batches) => Some (Normal (map b_sends batches))
  end.

(** The number of pauses in a run. *)
Definition delays (batches : list batch_run) : nat :=
  length (omap b_delay batches).

(* ================================================================== *)
(** * Properties                                                       *)
(* ================================================================== *)

(** ** Strings *)

#[local] Arguments String.append !s1 s2 : simpl nomatch.

Lemma append_nil_r (s : string) : s +:+ EmptyString = s.
Proof. induction s as [|c s IH]; simpl; [reflexivity | now rewrite IH]. Qed.

Lemma append_assoc (a b c : string) : (a +:+ b) +:+ c = a +:+ (b +:+ c).
Proof. induction a as [|x a IH]; simpl; [reflexivity | now rewrite IH]. Qed.

Lemma is_at_not_word (c : ascii) : is_at c = true -> is_word c = false.
Proof.
  unfold is_at. intros H. apply Ascii.eqb_eq in H. subst c. reflexivity.
Qed.

Lemma word_run_spec (r : string) :
  forall w t, word_run r = (w, t) -> r = w +:+ t /\ all_word w = true.
Proof.
  induction r as [|c r IH]; simpl; intros w t H.
  - inversion H; subst. split; reflexivity.
  - destruct (is_word c) eqn:Hc.
    + destruct (word_run r) as [w' t'] eqn:Hr. inversion H; subst.
      destruct (IH w' t eq_refl) as [-> Hw]. simpl. rewrite Hc, Hw.
      split; reflexivity.
    + inversion H; subst. split; reflexivity.
Qed.

(** The greedy run of [w ++ t] is [w] when [w] is in the class and [t] does
    not go on with a class character. *)
Lemma word_run_app (w t : string) :
  all_word w = true ->
  match t with String d _ => is_word d = false | EmptyString => True end ->
  word_run (w +:+ t) = (w, t).
Proof.
  intros Hw Ht. induction w as [|c w IH]; simpl in *.
  - destruct t as [|d t]; [reflexivity|]. simpl. now rewrite Ht.
  - apply andb_true_iff in Hw as [Hc Hw]. rewrite Hc, (IH Hw). reflexivity.
Qed.

Lemma token_at_spec (s w : string) :
  token_at s = Some w ->
  exists post, s = token_text w +:+ post /\ all_word w = true.
Proof.
  destruct s as [|c r]; simpl; [discriminate|].
  destruct (is_at c) eqn:Hc; [|discriminate].
  destruct (word_run r) as [w' t] eqn:Hr.
  destruct t as [|d t]; [discriminate|].
  destruct (is_at d) eqn:Hd; [|discriminate].
  intros H; inversion H; subst w'.
  apply word_run_spec in Hr as [-> Hw].
  apply Ascii.eqb_eq in Hc, Hd. subst c d.
  exists t. split; [|exact Hw].
  unfold token_text. simpl. f_equal. rewrite append_assoc. reflexivity.
Qed.

Lemma token_at_token (w post : string) :
  all_word w = true -> token_at (token_text w +:+ post) = Some w.
Proof.
  intros Hw. unfold token_text. simpl.
  rewrite append_assoc. simpl.
  rewrite (word_run_app w (String "@" post) Hw); reflexivity.
Qed.

Lemma slice_token_text (w : string) : slice_1_m1 (token_text w) = w.
Proof.
  unfold token_text. simpl.
  induction w as [|c w IH]; simpl; [reflexivity|].
  assert (Hlen : forall v : string,
             String.length (v +:+ "@") = S (String.length v)).
  { intros v. induction v as [|x v IHv]; simpl; [reflexivity | now rewrite IHv]. }
  rewrite Hlen in *. simpl in *. rewrite Nat.sub_0_r in *.
  f_equal. exact IH.
Qed.

(** ** The global scan *)

(** Stepping over the rest of a match. *)
Lemma scan_skip (pre s : string) :
  scan (String.length pre) (pre +:+ s) = scan 0 s.
Proof. induction pre as [|c pre IH]; simpl; [reflexivity | exact IH]. Qed.

(** Text without [@] is cut into its characters. *)
Lemma scan_plain (text rest : string) :
  no_at text = true -> scan 0 (text +:+ rest) = lits text ++ scan 0 rest.
Proof.
  intros H. induction text as [|c text IH]; simpl in *; [reflexivity|].
  apply andb_true_iff in H as [Hc Ht].
  destruct (is_at c); [discriminate|]. simpl. f_equal. apply IH, Ht.
Qed.

(** A token at the front is one match, and the scan goes on behind it. *)
Lemma scan_token (w rest : string) :
  all_word w = true -> scan 0 (token_text w +:+ rest) = Tok w :: scan 0 rest.
Proof.
  intros Hw.
  pose proof (token_at_token w rest Hw) as Hat.
  unfold token_text in *. simpl in *.
  destruct (word_run ((w +:+ "@") +:+ rest)) as [w' t] eqn:Hr.
  destruct t as [|d t]; [discriminate|].
  destruct (is_at d); [|discriminate].
  inversion Hat; subst w'. f_equal.
  rewrite append_assoc. simpl.
  change (String "@" rest) with ("@" +:+ rest).
  rewrite <- append_assoc.
  replace (S (String.length w)) with (String.length (w +:+ "@")).
  - apply scan_skip.
  - clear. induction w as [|c w IH]; simpl; [reflexivity | now rewrite IH].
Qed.

(** Every match the scan reports is an occurrence of the pattern. *)
Lemma scan_sound (s : string) :
  forall skip w, In (Tok w) (scan skip s) ->
    exists pre post, s = pre +:+ token_text w +:+ post /\ all_word w = true.
Proof.
  induction s as [|c r IH]; intros skip w Hin; [contradiction|].
  assert (Hrest : forall k, In (Tok w) (scan k r) ->
            exists pre post,
              String c r = pre +:+ token_text w +:+ post /\ all_word w = true).
  { intros k Hk. destruct (IH _ _ Hk) as (pre & post & Hr & Hw).
    exists (String c pre), post. split; [simpl; f_equal; exact Hr | exact Hw]. }
  destruct skip as [|k]; cbn [scan] in Hin; [|eapply Hrest; exact Hin].
  destruct (token_at (String c r)) as [w'|] eqn:Hat.
  - destruct Hin as [Heq | Hin]; [|eapply Hrest; exact Hin].
    inversion Heq; subst w'. apply token_at_spec in Hat as (post & Hs & Hw).
    exists EmptyString, post. split; [exact Hs | exact Hw].
  - destruct Hin as [Heq | Hin]; [discriminate | eapply Hrest; exact Hin].
Qed.

Lemma matched_texts_nil (s : string) : ~ has_token s -> matched_texts s = [].
Proof.
  intros Hno. unfold matched_texts.
  assert (H : forall p, In p (scan 0 s) -> exists c, p = Lit c).
  { intros [c|w] Hin; [eauto|]. exfalso. apply Hno.
    destruct (scan_sound _ _ _ Hin) as (pre & post & Hs & Hw).
    exists pre, w, post. split; assumption. }
  induction (scan 0 s) as [|p l IH]; [reflexivity|].
  destruct (H p (or_introl eq_refl)) as [c ->]. simpl.
  apply IH. intros q Hq. apply H. right. exact Hq.
Qed.

Lemma str_match_null (s : string) : ~ has_token s -> str_match s = None.
Proof. intros H. unfold str_match. now rewrite (matched_texts_nil s H). Qed.

(** A text has a match exactly when it contains the pattern. *)
Lemma scan_complete (pre w post : string) :
  all_word w = true ->
  exists w', In (Tok w') (scan 0 (pre +:+ token_text w +:+ post)).
Proof.
  intros Hw. induction pre as [|c pre IH].
  - exists w. change (EmptyString +:+ token_text w +:+ post)
      with (token_text w +:+ post).
    rewrite scan_token by exact Hw. left. reflexivity.
  - destruct IH as [w' Hin].
    change (String c pre +:+ token_text w +:+ post)
      with (String c (pre +:+ token_text w +:+ post)).
    cbn [scan].
    destruct (token_at (String c (pre +:+ token_text w +:+ post))) as [v|].
    + exists v. left. reflexivity.
    + exists w'. right. exact Hin.
Qed.

Lemma has_token_matched (s : string) : has_token s <-> matched_texts s <> [].
Proof.
  split.
  - intros (pre & w & post & -> & Hw) Hnil.
    destruct (scan_complete pre w post Hw) as [w' Hin].
    unfold matched_texts in Hnil.
    induction (scan 0 (pre +:+ token_text w +:+ post)) as [|p l IH];
      [contradiction|].
    destruct Hin as [-> | Hin]; [discriminate|].
    destruct p; simpl in Hnil; [auto | discriminate].
  - intros Hne. unfold matched_texts in Hne.
    assert (Hex : exists w, In (Tok w) (scan 0 s)).
    { induction (scan 0 s) as [|p l IH]; [contradiction|].
      destruct p as [c|w]; [|exists w; left; reflexivity].
      destruct (IH Hne) as [w Hin]. exists w. right. exact Hin. }
    destruct Hex as [w Hin].
    destruct (scan_sound _ _ _ Hin) as (pre & post & Hs & Hw).
    exists pre, w, post. split; assumption.
Qed.

(** ** replaceTokens *)

Lemma concat_cons (x : string) (l : list string) :
  String.concat EmptyString (x :: l) = x +:+ String.concat EmptyString l.
Proof.
  destruct l as [|y l]; simpl; [now rewrite append_nil_r | reflexivity].
Qed.

Lemma str_replace_plain (f : string -> string) (text rest : string) :
  no_at text = true ->
  str_replace f (text +:+ rest) = text +:+ str_replace f rest.
Proof.
  intros H. unfold str_replace. rewrite scan_plain by exact H.
  clear H. induction text as [|c text IH]; [reflexivity|].
  cbn [lits map app]. rewrite concat_cons, IH. reflexivity.
Qed.

Lemma str_replace_token (f : string -> string) (w rest : string) :
  all_word w = true ->
  str_replace f (token_text w +:+ rest) = f (token_text w) +:+ str_replace f rest.
Proof.
  intros H. unfold str_replace. rewrite scan_token by exact H.
  cbn [map]. apply concat_cons.
Qed.

(** Text without [@] is copied. *)
Lemma replaceTokens_plain (text rest : string) (keys values : list string) :
  no_at text = true ->
  replaceTokens (text +:+ rest) keys values
  = text +:+ replaceTokens rest keys values.
Proof. apply str_replace_plain. Qed.

(** A token is replaced by its expansion, which is copied as it is: the
    scan goes on in the text behind the token, not in the expansion. *)
Lemma replaceTokens_token (w rest : string) (keys values : list string) :
  all_word w = true ->
  replaceTokens (token_text w +:+ rest) keys values
  = expansion keys values w +:+ replaceTokens rest keys values.
Proof.
  intros H. unfold replaceTokens. rewrite str_replace_token by exact H.
  f_equal. rewrite slice_token_text. unfold expansion, js_or.
  destruct (arr_get values (indexOf keys w)) as [v|]; simpl; [|reflexivity].
  destruct (String.eqb v EmptyString); reflexivity.
Qed.

Lemma indexOf_from_range {A} `{EqDecision A} (x : A) (l : list A) (pos : Z) :
  indexOf_from x l pos = -1 \/
  (pos <= indexOf_from x l pos < pos + Z.of_nat (length l)).
Proof.
  revert pos. induction l as [|y l IH]; intros pos; simpl; [left; reflexivity|].
  destruct (decide (y = x)); [right; lia|].
  destruct (IH (pos + 1)) as [->|Hr]; [left; reflexivity | right; lia].
Qed.

Lemma indexOf_from_lookup {A} `{EqDecision A} (x : A) (l : list A) (pos : Z) :
  indexOf_from x l pos <> -1 -> 0 <= pos ->
  l !! Z.to_nat (indexOf_from x l pos - pos) = Some x.
Proof.
  revert pos. induction l as [|y l IH]; intros pos; simpl; [congruence|].
  destruct (decide (y = x)) as [->|Hne]; intros Hi Hp.
  - rewrite Z.sub_diag. reflexivity.
  - specialize (IH (pos + 1) Hi ltac:(lia)).
    destruct (indexOf_from_range x l (pos + 1)) as [E|Hr]; [congruence|].
    replace (Z.to_nat (indexOf_from x l (pos + 1) - pos))
      with (S (Z.to_nat (indexOf_from x l (pos + 1) - (pos + 1)))) by lia.
    exact IH.
Qed.

Lemma indexOf_from_absent {A} `{EqDecision A} (x : A) (l : list A) (pos : Z) :
  0 <= pos -> (indexOf_from x l pos = -1 <-> x ∉ l).
Proof.
  revert pos. induction l as [|y l IH]; intros pos Hpos; simpl.
  - split; [intros _; apply not_elem_of_nil | reflexivity].
  - destruct (decide (y = x)) as [->|Hne].
    + split; [lia | intros H; exfalso; apply H; left].
    + rewrite (IH (pos + 1)) by lia. rewrite not_elem_of_cons.
      split; [auto | intros [_ ?]; auto].
Qed.

(** [indexOf] is -1 exactly on what is not in the list. *)
Lemma indexOf_absent {A} `{EqDecision A} (l : list A) (x : A) :
  indexOf l x = -1 <-> x ∉ l.
Proof. apply indexOf_from_absent. lia. Qed.

(** The index of a known column is where that column is. *)
Lemma indexOf_lookup {A} `{EqDecision A} (l : list A) (x : A) :
  x ∈ l -> 0 <= indexOf l x /\ l !! Z.to_nat (indexOf l x) = Some x.
Proof.
  intros Hin.
  assert (Hne : indexOf l x <> -1)
    by (intros E; apply indexOf_absent in E; contradiction).
  unfold indexOf in *.
  destruct (indexOf_from_range x l 0) as [E|Hr]; [contradiction|].
  split; [lia|].
  pose proof (indexOf_from_lookup x l 0 Hne ltac:(lia)) as Hl.
  now rewrite Z.sub_0_r in Hl.
Qed.

(** The token of a column whose value is not empty stands for that value;
    with an empty value, or without such a column, it stands for itself. *)
Lemma expansion_known (keys values : list string) (w v : string) :
  w ∈ keys -> values !! Z.to_nat (indexOf keys w) = Some v -> v <> EmptyString ->
  expansion keys values w = v.
Proof.
  intros Hin Hv Hne. destruct (indexOf_lookup keys w Hin) as [H0 _].
  unfold expansion, arr_get.
  replace (indexOf keys w <? 0) with false by (symmetry; apply Z.ltb_ge; lia).
  rewrite Hv. destruct (String.eqb_spec v EmptyString); congruence.
Qed.

Lemma expansion_empty (keys values : list string) (w : string) :
  w ∈ keys -> values !! Z.to_nat (indexOf keys w) = Some EmptyString ->
  expansion keys values w = token_text w.
Proof.
  intros Hin Hv. destruct (indexOf_lookup keys w Hin) as [H0 _].
  unfold expansion, arr_get.
  replace (indexOf keys w <? 0) with false by (symmetry; apply Z.ltb_ge; lia).
  now rewrite Hv.
Qed.

Lemma expansion_unknown (keys values : list string) (w : string) :
  w ∉ keys -> expansion keys values w = token_text w.
Proof.
  intros Hout. apply indexOf_absent in Hout.
  unfold expansion, arr_get. rewrite Hout. reflexivity.
Qed.

(** The spec's example: tokens of both columns, in either order. *)
Example replaceTokens_ana :
  replaceTokens "@Email@ is @Name@" ["Name"; "Email"] ["Ana"; "ana@x.com"]
  = "ana@x.com is Ana".
Proof. reflexivity. Qed.

(** An expansion that looks like a token stays as it is. *)
Example replaceTokens_no_rescan :
  replaceTokens "@Name@ @Email@" ["Name"; "Email"] ["@Email@"; "e"] = "@Email@ e".
Proof. reflexivity. Qed.

(** C6 (fails on the code).  With the columns Name and Email and a record
    whose Name is the empty string, [replaceTokens] of sendEmails.js keeps the
    text [@Name@] instead of putting the empty value there.  part_000 does
    put the empty value there, but writes [undefined] for a token that names
    no column. *)
Theorem replaceTokens_empty_value :
  replaceTokens "Hi @Name@!" ["Name"; "Email"] [EmptyString; "a@x.org"]
  = "Hi @Name@!"
  /\ Part000.replaceTokens "Hi @Name@!" ["Name"; "Email"] [EmptyString; "a@x.org"]
     = "Hi !"
  /\ Part000.replaceTokens "Hi @Phone@!" ["Name"; "Email"] ["Ana"; "a@x.org"]
     = "Hi undefined!".
Proof. repeat split; reflexivity. Qed.

(** ** Template check *)

Lemma sort_tokens_filter (columnNames tokens : list string) :
  sort_tokens columnNames tokens
  = (filter (fun t => slice_1_m1 t ∈ columnNames) tokens,
     filter (fun t => slice_1_m1 t ∉ columnNames) tokens).
Proof.
  unfold sort_tokens.
  set (step := fun '(usedTokens, unavailableTokens) tokenName => _).
  assert (H : forall used bad,
             foldl step (used, bad) tokens
             = (used ++ filter (fun t => slice_1_m1 t ∈ columnNames) tokens,
                bad ++ filter (fun t => slice_1_m1 t ∉ columnNames) tokens)).
  { induction tokens as [|t tokens IH]; intros used bad; simpl.
    - now rewrite !app_nil_r.
    - rewrite !filter_cons.
      destruct (indexOf columnNames (slice_1_m1 t) =? -1) eqn:E.
      + apply Z.eqb_eq, indexOf_absent in E.
        rewrite IH. rewrite decide_False by (intros ?; contradiction).
        rewrite decide_True by exact E. now rewrite <- app_assoc.
      + apply Z.eqb_neq in E. rewrite indexOf_absent in E.
        assert (Hin : slice_1_m1 t ∈ columnNames).
        { destruct (decide (slice_1_m1 t ∈ columnNames)); [assumption|contradiction]. }
        rewrite IH. rewrite decide_True by exact Hin.
        rewrite decide_False by (intros Hn; apply Hn, Hin).
        now rewrite <- app_assoc. }
  apply (H [] []).
Qed.

(** C7 (fails on the code).  When subject line and template contain no
    [@name@] pattern, [match] yields [null] rather than an empty array, and
    the check ends in the TypeError of calling [forEach] on [null]. *)
Theorem check_template_no_token (SUBJECT_LINE templateFileContents : string)
    (columnNames : list string) :
  ~ has_token (SUBJECT_LINE +:+ templateFileContents) ->
  str_match (SUBJECT_LINE +:+ templateFileContents) = None
  /\ check_template SUBJECT_LINE templateFileContents columnNames
     = Throw null_forEach.
Proof.
  intros H. pose proof (str_match_null _ H) as Hnull.
  split; [exact Hnull|]. unfold check_template. now rewrite Hnull.
Qed.

Lemma check_template_no_token_witness :
  ~ has_token ("Hello" +:+ "<p>Hi</p>")
  /\ str_match ("Hello" +:+ "<p>Hi</p>") = None
  /\ check_template "Hello" "<p>Hi</p>" ["Name"; "Email"] = Throw null_forEach.
Proof.
  assert (H : ~ has_token ("Hello" +:+ "<p>Hi</p>")).
  { intros H. apply has_token_matched in H. apply H. vm_compute. reflexivity. }
  split; [exact H|].
  exact (check_template_no_token "Hello" "<p>Hi</p>" ["Name"; "Email"] H).
Defined.

(** The token with the empty name is found and sorted like any other. *)
Example check_template_empty_name :
  check_template "Hi @@" "<p>@Name@</p>" ["Name"; "Email"]
  = Throw (Error (unavailable_message ["@@"])).
Proof. reflexivity. Qed.

(** C8 (fails on the code where there is no token).  With at least one
    token, the check throws exactly when some token names no column, and the
    message then lists every such token, in order of occurrence; otherwise it
    yields the tokens used.  With no token at all it throws the TypeError of
    [forEach] on [null], although no token lacks a column. *)
Theorem check_template_outcome (SUBJECT_LINE templateFileContents : string)
    (columnNames : list string) :
  check_template SUBJECT_LINE templateFileContents columnNames
  = match str_match (SUBJECT_LINE +:+ templateFileContents) with
    | None => Throw null_forEach
    | Some tokens =>
        match filter (fun t => slice_1_m1 t ∉ columnNames) tokens with
        | [] => Normal tokens
        | unavailable => Throw (Error (unavailable_message unavailable))
        end
    end.
Proof.
  unfold check_template.
  destruct (str_match (SUBJECT_LINE +:+ templateFileContents)) as [tokens|];
    [|reflexivity].
  rewrite sort_tokens_filter.
  destruct (filter (fun t => slice_1_m1 t ∉ columnNames) tokens)
    as [|u bad] eqn:Hbad; simpl; [|reflexivity].
  f_equal. clear -Hbad.
  induction tokens as [|t tokens IH]; [reflexivity|].
  rewrite filter_cons in Hbad |- *.
  destruct (decide (slice_1_m1 t ∉ columnNames)) as [Hn|Hy]; [discriminate|].
  rewrite decide_True.
  - f_equal. apply IH, Hbad.
  - destruct (decide (slice_1_m1 t ∈ columnNames)); [assumption|contradiction].
Qed.

(** Every token of the text is listed when it names no column, however
    often it occurs. *)
Example check_template_phone :
  check_template "Hi @Name@" "<p>@Phone@ or @Phone@, @Fax@</p>" ["Name"; "Email"]
  = Throw (Error (unavailable_message ["@Phone@"; "@Phone@"; "@Fax@"])).
Proof. reflexivity. Qed.

(** ** sendOneEmail *)

Lemma sendOneEmail_settle htmlToText send (config : send_config) :
  sendOneEmail htmlToText send config
  = Normal (settle (send (messageObject htmlToText config))).
Proof.
  unfold sendOneEmail, settle.
  destruct (send (messageObject htmlToText config)) as [[[r|] reject]|e];
    simpl; try reflexivity.
  - destruct (truthy reject); [reflexivity|].
    simpl. destruct (statusCode r =? 202); reflexivity.
  - destruct (truthy reject); reflexivity.
Qed.

(** C9.  [sendOneEmail] always settles with a value: the [x-message-id]
    header when the provider call returned a response with no rejection
    value and status 202, and [false] in every other case: a thrown error,
    a rejection value, a missing response, or any other status.  The header
    is a string or [undefined], so it is never the value [false]. *)
Theorem sendOneEmail_value htmlToText send (config : send_config) :
  sendOneEmail htmlToText send config
  = Normal
      match send (messageObject htmlToText config) with
      | Normal (Some r, reject) =>
          if truthy reject then JBool false
          else if statusCode r =? 202
               then of_option (headers r !! "x-message-id")
               else JBool false
      | Normal (None, _) => JBool false
      | Throw _ => JBool false
      end
  /\ forall header, of_option header <> JBool false.
Proof.
  split; [apply sendOneEmail_settle|].
  intros [h|]; discriminate.
Qed.

(** Status 200, a success code, still counts as a failure. *)
Example sendOneEmail_200 htmlToText (config : send_config) :
  sendOneEmail htmlToText
    (fun _ => Normal (Some {| statusCode := 200;
                              headers := {[ "x-message-id" := "abc" ]} |},
                      JStr EmptyString)) config
  = Normal (JBool false).
Proof. reflexivity. Qed.

(** ** getCsvInfo *)

(** Closed goals of the form [x ∉ l] are settled by evaluation. *)
Ltac absent :=
  match goal with
  | |- ?P => apply (@bool_decide_unpack P _); vm_compute; exact I
  end.

Lemma count_LF_app (a b : list byte) : count_LF (a ++ b) = count_LF a + count_LF b.
Proof. unfold count_LF. rewrite filter_app, length_app. lia. Qed.

Lemma count_LF_cons_LF (l : list byte) : count_LF (LF :: l) = 1 + count_LF l.
Proof. unfold count_LF. rewrite filter_cons_True by reflexivity. simpl length. lia. Qed.

Lemma count_LF_absent (l : list byte) : LF ∉ l -> count_LF l = 0.
Proof.
  intros H. unfold count_LF. induction l as [|x l IH]; [reflexivity|].
  apply not_elem_of_cons in H as [Hx Hl].
  rewrite filter_cons_False by congruence. apply IH, Hl.
Qed.

Lemma index_from_absent (value : byte) (l : list byte) (pos : Z) :
  0 <= pos -> (index_from value l pos = -1 <-> value ∉ l).
Proof.
  revert pos. induction l as [|x l IH]; intros pos Hpos; simpl.
  - split; [intros _; apply not_elem_of_nil | reflexivity].
  - destruct (decide (x = value)) as [->|Hne].
    + split; [lia | intros H; exfalso; apply H; left].
    + rewrite (IH (pos + 1)) by lia. rewrite not_elem_of_cons.
      split; [auto | intros [_ ?]; auto].
Qed.

(** A hit of [indexOf] splits the buffer at the first occurrence. *)
Lemma index_from_split (value : byte) (l : list byte) (pos : Z) :
  0 <= pos -> index_from value l pos <> -1 ->
  exists pre post, l = pre ++ value :: post /\ (value ∉ pre)
                   /\ index_from value l pos = pos + Z.of_nat (length pre).
Proof.
  revert pos. induction l as [|x l IH]; intros pos Hpos; simpl; [congruence|].
  destruct (decide (x = value)) as [->|Hne]; intros Hi.
  - exists [], l. repeat split; [apply not_elem_of_nil | simpl; lia].
  - destruct (IH (pos + 1) ltac:(lia) Hi) as (pre & post & -> & Hpre & E).
    exists (x :: pre), post. repeat split.
    + apply not_elem_of_cons. split; [congruence | exact Hpre].
    + rewrite E. simpl length. lia.
Qed.

Lemma index_from_first (value : byte) (pre post : list byte) (pos : Z) :
  value ∉ pre ->
  index_from value (pre ++ value :: post) pos = pos + Z.of_nat (length pre).
Proof.
  revert pos. induction pre as [|x pre IH]; intros pos H; simpl.
  - rewrite decide_True by reflexivity. lia.
  - apply not_elem_of_cons in H as [Hx Hpre].
    rewrite decide_False by congruence. rewrite IH by exact Hpre. lia.
Qed.

(** The counting loop ends within the steps it is given and adds one for
    its last turn and one per line feed behind [idx]. *)
Lemma count_loop_from (fuel : nat) :
  forall (buffer : list byte) (idx recordCount : Z),
    -1 <= idx ->
    (Z.to_nat (idx + 1) <= length buffer)%nat ->
    (length buffer < fuel + Z.to_nat (idx + 1))%nat ->
    count_loop fuel buffer idx recordCount
    = Some (recordCount + 1 + count_LF (drop (Z.to_nat (idx + 1)) buffer)).
Proof.
  induction fuel as [|fuel IH]; intros buffer idx recordCount Hidx Hin Hfuel.
  - lia.
  - cbn [count_loop]. unfold buf_indexOf.
    set (tail := drop (Z.to_nat (idx + 1)) buffer).
    destruct (Z.eq_dec (index_from LF tail (idx + 1)) (-1)) as [E|E].
    + rewrite E. simpl.
      apply index_from_absent in E; [|lia].
      rewrite (count_LF_absent _ E). f_equal. lia.
    + destruct (index_from_split LF tail (idx + 1) ltac:(lia) E)
        as (pre & post & Htail & Hpre & Hi).
      rewrite Hi.
      replace (idx + 1 + Z.of_nat (length pre) =? -1) with false
        by (symmetry; apply Z.eqb_neq; lia).
      simpl negb. cbv iota.
      assert (Hlen : length buffer
                     = (Z.to_nat (idx + 1) + length pre + 1 + length post)%nat).
      { destruct (le_lt_dec (length buffer) (Z.to_nat (idx + 1))) as [Hle|Hlt].
        - unfold tail in Htail. rewrite drop_ge in Htail by lia.
          destruct pre; discriminate.
        - pose proof (f_equal length Htail) as HL. unfold tail in HL.
          rewrite length_drop, length_app in HL. simpl in HL. lia. }
      rewrite IH by lia.
      f_equal.
      replace (Z.to_nat (idx + 1 + Z.of_nat (length pre) + 1))
        with (Z.to_nat (idx + 1) + (length pre + 1))%nat by lia.
      rewrite <- drop_drop. fold tail. rewrite Htail.
      rewrite count_LF_app, count_LF_cons_LF, (count_LF_absent _ Hpre).
      replace (length pre + 1)%nat with (length (pre ++ [LF])) by
        (rewrite length_app; reflexivity).
      rewrite (cons_middle LF pre post), app_assoc, drop_app_length. lia.
Qed.

Lemma count_loop_fuel (buffer : list byte) (recordCount : Z) :
  count_loop (S (length buffer)) buffer (-1) recordCount
  = Some (recordCount + 1 + count_LF buffer).
Proof. rewrite count_loop_from by (simpl; lia). reflexivity. Qed.

Section CsvInfoFacts.

Variable parse : string -> completion (list (list string)).

(** Once the column names are known, a chunk only adds its line feeds. *)
Lemma on_data_count (cols : list string) (recordCount : Z) (buffer : list byte) :
  cols <> [] ->
  on_data parse (cols, recordCount) buffer
  = Normal (cols, recordCount + count_LF buffer).
Proof.
  intros H. unfold on_data.
  rewrite bool_decide_eq_false_2 by exact H.
  rewrite count_loop_fuel. simpl. do 2 f_equal. lia.
Qed.

Lemma feed_count (cols : list string) (bufs : list (list byte)) :
  cols <> [] ->
  forall recordCount,
    feed parse (cols, recordCount) bufs
    = Normal (cols, recordCount + count_LF (concat bufs)).
Proof.
  intros H. induction bufs as [|b bufs IH]; intros recordCount; cbn [feed].
  - f_equal. f_equal. unfold count_LF. simpl. lia.
  - rewrite on_data_count by exact H. simpl. rewrite IH, count_LF_app.
    do 2 f_equal. lia.
Qed.

(** The first chunk: the header is what precedes the first line feed, or,
    without one, everything but the last byte. *)
Lemma on_data_first (buffer : list byte) (cols : list string)
    (others : list (list string)) :
  parse (string_of_list_byte (buf_slice0 buffer (buf_indexOf buffer LF 0)))
  = Normal (cols :: others) ->
  on_data parse ([], 0) buffer = Normal (cols, count_LF buffer).
Proof.
  intros Hp. unfold on_data. rewrite bool_decide_eq_true_2 by reflexivity.
  rewrite Hp, count_loop_fuel. simpl. reflexivity.
Qed.

(** The scanner reports the number of line feeds in the file, less one. *)
Lemma getCsvInfo_line_feeds (first : list byte) (rest : list (list byte))
    (cols : list string) (others : list (list string)) :
  parse (string_of_list_byte (buf_slice0 first (buf_indexOf first LF 0)))
  = Normal (cols :: others) ->
  cols <> [] ->
  getCsvInfo parse {| chunks := first :: rest; ending := OnEnd |}
  = Resolved {| columnNames := cols;
                recordCount := count_LF (concat (first :: rest)) - 1 |}.
Proof.
  intros Hp Hc. unfold getCsvInfo. cbn [chunks ending feed].
  rewrite (on_data_first _ _ _ Hp). simpl.
  rewrite feed_count by exact Hc. cbn [concat]. rewrite count_LF_app.
  reflexivity.
Qed.

End CsvInfoFacts.

Lemma count_LF_terminated (lines : list (list byte)) :
  Forall (fun line => LF ∉ line) lines ->
  count_LF (terminated lines) = Z.of_nat (length lines).
Proof.
  unfold terminated. induction 1 as [|line lines Hline _ IH]; [reflexivity|].
  cbn [map concat length]. rewrite <- app_assoc, !count_LF_app, IH.
  rewrite (count_LF_absent _ Hline). change (count_LF [LF]) with 1. lia.
Qed.

Lemma count_LF_separated (lines : list (list byte)) :
  Forall (fun line => LF ∉ line) lines ->
  lines <> [] ->
  count_LF (separated lines) = Z.of_nat (length lines) - 1.
Proof.
  induction 1 as [|line lines Hline Hrest IH]; intros Hne; [congruence|].
  destruct lines as [|line' lines].
  - simpl. rewrite (count_LF_absent _ Hline). reflexivity.
  - change (separated (line :: line' :: lines))
      with (line ++ LF :: separated (line' :: lines)).
    rewrite count_LF_app, count_LF_cons_LF, (count_LF_absent _ Hline).
    rewrite IH by discriminate. simpl length. lia.
Qed.

Lemma buf_indexOf_0 (buffer : list byte) (value : byte) :
  buf_indexOf buffer value 0 = index_from value buffer 0.
Proof. unfold buf_indexOf. change (Z.to_nat 0) with 0%nat. now rewrite drop_0. Qed.

(** The header of a first chunk that holds the whole first line. *)
Lemma header_of_first_chunk (header more : list byte) :
  LF ∉ header ->
  buf_slice0 (header ++ LF :: more) (buf_indexOf (header ++ LF :: more) LF 0)
  = header.
Proof.
  intros H. rewrite buf_indexOf_0.
  rewrite index_from_first by exact H. unfold buf_slice0.
  rewrite length_app. simpl length.
  replace (0 + Z.of_nat (length header) <? 0) with false
    by (symmetry; apply Z.ltb_ge; lia).
  rewrite Z.min_l by lia.
  replace (Z.to_nat (0 + Z.of_nat (length header))) with (length header) by lia.
  apply take_app_length.
Qed.

(** Without a line feed [indexOf] is -1, and [slice(0, -1)] drops the last
    byte. *)
Lemma header_without_line_feed (first : list byte) :
  LF ∉ first ->
  buf_slice0 first (buf_indexOf first LF 0) = take (length first - 1) first.
Proof.
  intros H. rewrite buf_indexOf_0.
  replace (index_from LF first 0) with (-1)
    by (symmetry; apply index_from_absent; [lia | exact H]).
  unfold buf_slice0. cbv zeta. change (-1 <? 0) with true. cbv iota.
  f_equal. lia.
Qed.

(** C1 (fails on the code for a file without a final line feed).  Let the
    first chunk hold the whole header line, and let header and rows be free
    of line feeds.  When every row ends in a line feed, [getCsvInfo] yields
    the parsed header and the number of rows.  When the last row is not
    followed by a line feed, it yields one less than the number of rows. *)
Theorem getCsvInfo_record_count parse (header : list byte)
    (rows : list (list byte)) (more : list byte) (rest : list (list byte))
    (cols : list string) (others : list (list string)) :
  LF ∉ header ->
  Forall (fun row => LF ∉ row) rows ->
  parse (string_of_list_byte header) = Normal (cols :: others) ->
  cols <> [] ->
  let file := {| chunks := (header ++ LF :: more) :: rest; ending := OnEnd |} in
  (concat (chunks file) = terminated (header :: rows) ->
   getCsvInfo parse file
   = Resolved {| columnNames := cols; recordCount := Z.of_nat (length rows) |})
  /\ (concat (chunks file) = separated (header :: rows) ->
      getCsvInfo parse file
      = Resolved {| columnNames := cols;
                    recordCount := Z.of_nat (length rows) - 1 |}).
Proof.
  intros Hh Hrows Hp Hc file.
  assert (Hres : getCsvInfo parse file
                 = Resolved {| columnNames := cols;
                               recordCount := count_LF (concat (chunks file)) - 1 |}).
  { apply getCsvInfo_line_feeds with (others := others); [|exact Hc].
    rewrite header_of_first_chunk by exact Hh. exact Hp. }
  split; intros Hfile; rewrite Hres, Hfile; do 2 f_equal.
  - rewrite count_LF_terminated by (constructor; assumption).
    simpl length. lia.
  - rewrite count_LF_separated by (try constructor; try assumption; discriminate).
    simpl length. lia.
Qed.

Lemma getCsvInfo_record_count_witness :
  getCsvInfo csv_plain (whole_file "Email,Name
a@x.org,Ann
b@x.org,Bob
")
  = Resolved {| columnNames := ["Email"; "Name"]; recordCount := 2 |}
  /\ getCsvInfo csv_plain (whole_file "Email,Name
a@x.org,Ann
b@x.org,Bob")
     = Resolved {| columnNames := ["Email"; "Name"]; recordCount := 1 |}.
Proof.
  split.
  - apply (proj1 (getCsvInfo_record_count csv_plain (bytes "Email,Name")
                    [bytes "a@x.org,Ann"; bytes "b@x.org,Bob"]
                    (bytes "a@x.org,Ann
b@x.org,Bob
") [] ["Email"; "Name"] []
                    ltac:(absent)
                    ltac:(repeat constructor; absent)
                    eq_refl ltac:(discriminate))).
    reflexivity.
  - apply (proj2 (getCsvInfo_record_count csv_plain (bytes "Email,Name")
                    [bytes "a@x.org,Ann"; bytes "b@x.org,Bob"]
                    (bytes "a@x.org,Ann
b@x.org,Bob") [] ["Email"; "Name"] []
                    ltac:(absent)
                    ltac:(repeat constructor; absent)
                    eq_refl ltac:(discriminate))).
    reflexivity.
Defined.

(** C10 (as stated, fails on a one-byte file).  A file of the single byte
    [E] holds no line feed; its header row is the empty text, the parser
    finds no record in it, and the handler throws: nothing is resolved. *)
Lemma getCsvInfo_one_byte :
  (LF ∉ bytes "E")
  /\ getCsvInfo csv_plain (whole_file "E")
     = Uncaught (TypeError "undefined is not iterable").
Proof. split; [absent | reflexivity]. Qed.

(** C10, amended.  When no chunk holds a line feed and the first chunk
    without its last byte parses into at least one record, with at least one
    field, [getCsvInfo] resolves with that record as the column names and
    with [recordCount = -1].  A file without any byte resolves with no column
    names and [recordCount = -1]. *)
Theorem getCsvInfo_no_line_feed parse (first : list byte)
    (rest : list (list byte)) (cols : list string) (others : list (list string)) :
  Forall (fun chunk => LF ∉ chunk) (first :: rest) ->
  parse (string_of_list_byte (take (length first - 1) first))
  = Normal (cols :: others) ->
  cols <> [] ->
  getCsvInfo parse {| chunks := first :: rest; ending := OnEnd |}
  = Resolved {| columnNames := cols; recordCount := -1 |}
  /\ getCsvInfo parse {| chunks := []; ending := OnEnd |}
     = Resolved {| columnNames := []; recordCount := -1 |}.
Proof.
  intros Hno Hp Hc. split; [|reflexivity].
  rewrite getCsvInfo_line_feeds with (cols := cols) (others := others);
    [|rewrite header_without_line_feed by (inversion Hno; assumption); exact Hp
     |exact Hc].
  do 2 f_equal.
  assert (H0 : count_LF (concat (first :: rest)) = 0); [|lia].
  clear Hp. induction Hno as [|chunk chunks Hchunk _ IH]; [reflexivity|].
  cbn [concat]. rewrite count_LF_app, (count_LF_absent _ Hchunk), IH. reflexivity.
Qed.

Lemma getCsvInfo_no_line_feed_witness :
  getCsvInfo csv_plain (whole_file "Email,Name")
  = Resolved {| columnNames := ["Email"; "Nam"]; recordCount := -1 |}.
Proof.
  apply (proj1 (getCsvInfo_no_line_feed csv_plain (bytes "Email,Name") []
                  ["Email"; "Nam"] []
                  ltac:(repeat constructor; absent) eq_refl ltac:(discriminate))).
Defined.

(** ** The batch loop *)

Lemma Promise_all_settled {A B} (f : A -> B) (l : list A) :
  Promise_all (map (fun x => Normal (f x)) l) = Normal (map f l).
Proof. induction l as [|x l IH]; simpl; [reflexivity | now rewrite IH]. Qed.

Section LoopFacts.

Variable htmlToText : string -> string.
Variable parse : string -> completion (list (list string)).
Variable iterate : jsval -> reported.
Variables (SUBJECT_LINE FROM_NAME FROM_ADDRESS : string).
Variables (throttle concurrency : jsval).
Variables (columnNames : list string) (recordCount emailColumnIndex : Z).
Variables (templateFileContents : string).
Variable (csvFileContents : list (list string)).

Let message_of (currentRecord : list string) : message :=
  messageObject htmlToText
    (send_config_of SUBJECT_LINE FROM_NAME FROM_ADDRESS columnNames
       emailColumnIndex templateFileContents currentRecord).

Let run_batch send :=
  batch htmlToText send iterate SUBJECT_LINE FROM_NAME FROM_ADDRESS throttle
    concurrency columnNames recordCount emailColumnIndex templateFileContents
    csvFileContents.

Let run_loop send :=
  loop htmlToText send iterate SUBJECT_LINE FROM_NAME FROM_ADDRESS throttle
    concurrency columnNames recordCount emailColumnIndex templateFileContents
    csvFileContents.

(** A batch never throws: every send settles, so does [Promise.all]. *)
Lemma batch_settles send (i : jsval) :
  exists b, run_batch send i = Normal b
    /\ b_index b = i
    /\ b_delay b = (if truthy throttle then Some throttle else None)
    /\ b_sends b = map message_of (batch_records concurrency csvFileContents i)
    /\ b_outcomes b = map (fun m => settle (send m)) (b_sends b).
Proof.
  unfold run_batch, batch.
  rewrite (map_ext _ (fun r => Normal (settle (send (message_of r)))))
    by (intros r; apply sendOneEmail_settle).
  rewrite (Promise_all_settled (fun r => settle (send (message_of r)))).
  eexists. split; [reflexivity|]. cbn.
  repeat split. now rewrite map_map.
Qed.

Lemma run_loop_S send (fuel : nat) (i : jsval) :
  run_loop send (S fuel) i
  = if js_le i (JNum recordCount) then
      match run_batch send i with
      | Throw e => Some (Throw e)
      | Normal b =>
          match run_loop send fuel (js_add i concurrency) with
          | Some (Normal bs) => Some (Normal (b :: bs))
          | other => other
          end
      end
    else Some (Normal []).
Proof. reflexivity. Qed.

(** The loop never throws, pauses before each of its batches when the
    throttle is set, and records what each send settled with. *)
Lemma loop_settles send (fuel : nat) :
  forall i, run_loop send fuel i = None
    \/ exists bs, run_loop send fuel i = Some (Normal bs)
         /\ Forall (fun b => b_delay b
                              = if truthy throttle then Some throttle else None) bs
         /\ Forall (fun b => b_outcomes b
                              = map (fun m => settle (send m)) (b_sends b)) bs.
Proof.
  induction fuel as [|fuel IH]; intros i; [left; reflexivity|].
  rewrite run_loop_S.
  destruct (js_le i (JNum recordCount)); [|right; exists []; auto].
  destruct (batch_settles send i) as (b & -> & _ & Hd & _ & Ho).
  destruct (IH (js_add i concurrency)) as [-> | (bs & -> & Hds & Hos)];
    [left; reflexivity|].
  right. exists (b :: bs). repeat split; constructor; assumption.
Qed.

(** It hands over the same messages whatever the provider answers. *)
Lemma loop_attempts send send' (fuel : nat) :
  forall i, loop_sends (run_loop send fuel i) = loop_sends (run_loop send' fuel i).
Proof.
  induction fuel as [|fuel IH]; intros i; [reflexivity|].
  rewrite !run_loop_S.
  destruct (js_le i (JNum recordCount)); [|reflexivity].
  destruct (batch_settles send i) as (b & -> & _ & _ & Hs & _).
  destruct (batch_settles send' i) as (b' & -> & _ & _ & Hs' & _).
  specialize (IH (js_add i concurrency)).
  destruct (run_loop send fuel (js_add i concurrency)) as [[bs|e]|];
    destruct (run_loop send' fuel (js_add i concurrency)) as [[bs'|e']|];
    try discriminate; try exact IH.
  cbn [loop_sends map] in *. inversion IH as [Hbs].
  now rewrite Hs, Hs', Hbs.
Qed.

End LoopFacts.

(** ** init *)

Section InitFacts.

Variable htmlToText : string -> string.
Variable parse : string -> completion (list (list string)).
Variable iterate : jsval -> reported.
Variable read_setting : jsval -> Z -> jsval.

(** A run either ends before the loop, in a way that depends neither on
    the provider nor on the fuel, or it is the loop started at [i = 1]. *)
Lemma init_with_cases (w : world) :
  (exists r, (r = Normal Exited \/ exists e, r = Throw e)
     /\ forall send fuel,
          init_with htmlToText send parse iterate read_setting fuel w = Some r)
  \/ (exists SUBJECT_LINE FROM_NAME FROM_ADDRESS cols count emailColumnIndex csv,
        forall send fuel,
          init_with htmlToText send parse iterate read_setting fuel w
          = match loop htmlToText send iterate SUBJECT_LINE FROM_NAME
                    FROM_ADDRESS
                    (read_setting (of_option (configFile w !! "THROTTLE"))
                                  defaults_throttle)
                    (read_setting (of_option (configFile w !! "CONCURRENCY"))
                                  defaults_concurrency)
                    cols count emailColumnIndex (templateFile w) csv
                    fuel (JNum 1) with
            | None => None
            | Some (Throw e) => Some (Throw e)
            | Some (Normal batches) => Some (Normal (Completed batches))
            end).
Proof.
  unfold init_with.
  destruct (negb _ || negb _ || negb _);
    [left; eexists; split; [right; eauto | reflexivity]|].
  destruct (getCsvInfo parse (csvFile w)) as [info|e|e];
    [|left; eexists; split; [right; eauto | reflexivity]..].
  destruct (indexOf (columnNames info) "Email" =? -1);
    [left; eexists; split; [right; eauto | reflexivity]|].
  destruct (check_template _ _ _) as [used|e];
    [|left; eexists; split; [right; eauto | reflexivity]].
  destruct (negb (confirmed w));
    [left; eexists; split; [left; reflexivity | reflexivity]|].
  destruct (parse _) as [csv|e];
    [|left; eexists; split; [right; eauto | reflexivity]].
  right. do 7 eexists. intros send fuel. reflexivity.
Qed.

(** What is handed to the provider does not depend on its answers. *)
Lemma init_with_attempts send send' (fuel : nat) (w : world) :
  attempted (init_with htmlToText send parse iterate read_setting fuel w)
  = attempted (init_with htmlToText send' parse iterate read_setting fuel w).
Proof.
  destruct (init_with_cases w) as [(r & _ & Hr) | (s & n & a & c & k & e & csv & H)].
  - now rewrite !Hr.
  - rewrite !H.
    pose proof (loop_attempts htmlToText iterate s n a
                  (read_setting (of_option (configFile w !! "THROTTLE"))
                                defaults_throttle)
                  (read_setting (of_option (configFile w !! "CONCURRENCY"))
                                defaults_concurrency)
                  c k e (templateFile w) csv send send' fuel (JNum 1)) as HL.
    cbv beta in HL.
    destruct (loop _ send _ _ _ _ _ _ _ _ _ _ _ fuel _) as [[bs|x]|];
      destruct (loop _ send' _ _ _ _ _ _ _ _ _ _ _ fuel _) as [[bs'|x']|];
      try discriminate; try exact HL; cbn in *; congruence.
Qed.

(** In a run that completes, every batch pauses when the throttle is set,
    and its outcomes are what [sendOneEmail] settled with. *)
Lemma init_with_batches send (fuel : nat) (w : world) (batches : list batch_run) :
  completed (init_with htmlToText send parse iterate read_setting fuel w)
  = Some batches ->
  let throttle := read_setting (of_option (configFile w !! "THROTTLE"))
                               defaults_throttle in
  Forall (fun b => b_delay b = if truthy throttle then Some throttle else None)
         batches
  /\ Forall (fun b => b_outcomes b = map (fun m => settle (send m)) (b_sends b))
            batches.
Proof.
  destruct (init_with_cases w) as [(r & Hshape & Hr) | (s & n & a & c & k & e & csv & H)].
  - rewrite Hr. destruct Hshape as [-> | [x ->]]; discriminate.
  - rewrite H. intros Hc throttle.
    destruct (loop_settles htmlToText iterate s n a throttle
                (read_setting (of_option (configFile w !! "CONCURRENCY"))
                              defaults_concurrency)
                c k e (templateFile w) csv send fuel (JNum 1))
      as [HN | (bs & Hbs & Hd & Ho)]; fold throttle in Hc.
    + rewrite HN in Hc. discriminate.
    + rewrite Hbs in Hc. inversion Hc; subst. split; assumption.
Qed.

End InitFacts.

(** In sendEmails.js (and in part_001) what a run hands to the provider
    does not depend on the provider's answers: with any two providers the
    run ends the same way, before the loop or after it, and every batch
    holds the same messages; no exception comes out of the loop.  Each
    outcome of a completed run is what [sendOneEmail] settled with for that
    message, and that is [false] when the provider throws and when it
    answers with a status other than 202. *)
Theorem send_failure_isolated htmlToText send send' parse (fuel : nat) (w : world) :
  attempted (SendEmails.init htmlToText send parse fuel w)
  = attempted (SendEmails.init htmlToText send' parse fuel w)
  /\ attempted (Part001.init htmlToText send parse fuel w)
     = attempted (Part001.init htmlToText send' parse fuel w)
  /\ (forall batches,
        completed (SendEmails.init htmlToText send parse fuel w) = Some batches ->
        Forall (fun b => b_outcomes b = map (fun m => settle (send m)) (b_sends b))
               batches)
  /\ (forall m e, send m = Throw e -> settle (send m) = JBool false)
  /\ (forall m r reject,
        send m = Normal (Some r, reject) -> statusCode r <> 202 ->
        settle (send m) = JBool false).
Proof.
  split; [apply init_with_attempts|].
  split; [apply init_with_attempts|].
  split; [|split].
  - intros batches H. eapply init_with_batches. exact H.
  - intros m e ->. reflexivity.
  - intros m r reject -> Hs. simpl.
    destruct (truthy reject); [reflexivity|].
    apply Z.eqb_neq in Hs. now rewrite Hs.
Qed.

Lemma send_failure_isolated_witness :
  attempted (SendEmails.init id fails_for_r4 csv_plain 8 (seven_world base_config))
  = attempted (SendEmails.init id accepted csv_plain 8 (seven_world base_config))
  /\ (map b_outcomes <$> completed
        (SendEmails.init id fails_for_r4 csv_plain 8 (seven_world base_config)))
     = Some [[JStr "id-r1@x.org"]; [JStr "id-r2@x.org"]; [JStr "id-r3@x.org"];
             [JBool false]; [JStr "id-r5@x.org"]; [JStr "id-r6@x.org"];
             [JStr "id-r7@x.org"]]
  /\ Forall (fun b => b_outcomes b
                      = map (fun m => settle (fails_for_r4 m)) (b_sends b))
       (default [] (completed
          (SendEmails.init id fails_for_r4 csv_plain 8 (seven_world base_config)))).
Proof.
  destruct (send_failure_isolated id fails_for_r4 accepted csv_plain 8
              (seven_world base_config)) as (H1 & _ & H3 & _).
  split; [exact H1|]. split; [vm_compute; reflexivity|].
  apply H3. vm_compute. reflexivity.
Defined.

Lemma delays_all (x : jsval) (batches : list batch_run) :
  Forall (fun b => b_delay b = Some x) batches -> delays batches = length batches.
Proof.
  unfold delays. induction 1 as [|b bs Hb _ IH]; [reflexivity|].
  cbn [omap list_omap]. rewrite Hb. simpl. now rewrite IH.
Qed.

(** C5 (as stated, fails).  With THROTTLE=100 and CONCURRENCY=3, part_001
    runs seven records in three batches and pauses three times, the first
    time before the first batch; sendEmails.js, which then runs one batch,
    pauses before that batch. *)
Lemma throttle_before_first_batch :
  (map b_delay <$> completed
     (Part001.init id accepted csv_plain 8
        (seven_world (<["THROTTLE" := "100"]> (<["CONCURRENCY" := "3"]> base_config)))))
  = Some [Some (JNum 100); Some (JNum 100); Some (JNum 100)]
  /\ (map b_delay <$> completed
        (SendEmails.init id accepted csv_plain 8
           (seven_world (<["THROTTLE" := "100"]> (<["CONCURRENCY" := "3"]> base_config)))))
     = Some [Some (JStr "100")].
Proof. split; vm_compute; reflexivity. Qed.

(** C5, amended.  When THROTTLE is a positive number, every batch of a
    completed run starts with the pause, the first batch too: a run of [b]
    batches pauses [b] times.  sendEmails.js reads the setting as the string
    of the config file, part_001 with [parseInt]. *)
Theorem throttle_before_every_batch htmlToText send parse (fuel : nat) (w : world)
    (s : string) (t : Z) :
  configFile w !! "THROTTLE" = Some s ->
  0 < t ->
  (StringToNumber s = Some t ->
   forall batches,
     completed (SendEmails.init htmlToText send parse fuel w) = Some batches ->
     Forall (fun b => b_delay b = Some (JStr s)) batches
     /\ delays batches = length batches)
  /\ (parseInt (JStr s) = Some t ->
      forall batches,
        completed (Part001.init htmlToText send parse fuel w) = Some batches ->
        Forall (fun b => b_delay b = Some (JNum t)) batches
        /\ delays batches = length batches).
Proof.
  intros Hcfg Ht. split; intros Hs batches Hc.
  - apply init_with_batches in Hc as [Hd _]. rewrite Hcfg in Hd.
    assert (Htr : SendEmails.read_setting (of_option (Some s)) defaults_throttle
                  = JStr s).
    { unfold SendEmails.read_setting, js_or. simpl.
      destruct s as [|c s]; [|reflexivity].
      vm_compute in Hs. inversion Hs. lia. }
    rewrite Htr in Hd.
    assert (Htruthy : truthy (JStr s) = true).
    { destruct s; [vm_compute in Hs; inversion Hs; lia | reflexivity]. }
    rewrite Htruthy in Hd. split; [exact Hd | eapply delays_all, Hd].
  - apply init_with_batches in Hc as [Hd _]. rewrite Hcfg in Hd.
    assert (Htr : Part001.read_setting (of_option (Some s)) defaults_throttle
                  = JNum t).
    { unfold Part001.read_setting, js_or. simpl of_option. rewrite Hs. simpl.
      destruct (Z.eqb_spec t 0); [lia | reflexivity]. }
    rewrite Htr in Hd.
    assert (Htruthy : truthy (JNum t) = true).
    { simpl. destruct (Z.eqb_spec t 0); [lia | reflexivity]. }
    rewrite Htruthy in Hd. split; [exact Hd | eapply delays_all, Hd].
Qed.

Lemma throttle_before_every_batch_witness :
  let w := seven_world (<["THROTTLE" := "100"]> (<["CONCURRENCY" := "3"]> base_config)) in
  (length <$> completed (Part001.init id accepted csv_plain 8 w)) = Some 3%nat
  /\ Forall (fun b => b_delay b = Some (JNum 100))
       (default [] (completed (Part001.init id accepted csv_plain 8 w)))
  /\ delays (default [] (completed (Part001.init id accepted csv_plain 8 w)))
     = 3%nat.
Proof.
  intros w. split; [vm_compute; reflexivity|].
  destruct (proj2 (throttle_before_every_batch id accepted csv_plain 8 w "100" 100
                     ltac:(vm_compute; reflexivity) ltac:(lia))
              ltac:(vm_compute; reflexivity)
              (default [] (completed (Part001.init id accepted csv_plain 8 w)))
              ltac:(vm_compute; reflexivity)) as [Hd Hn].
  split; [exact Hd|]. rewrite Hn. vm_compute. reflexivity.
Defined.

(** ** Batches with a numeric CONCURRENCY *)

Lemma partitioned_concat {A} (c : nat) (l : list A) (groups : list (list A)) :
  partitioned c l groups -> concat groups = l.
Proof.
  induction 1 as [|g Hg Hlen|g rest groups Hlen Hrest Hp IH]; simpl.
  - reflexivity.
  - apply app_nil_r.
  - now rewrite IH.
Qed.

(** With a number for CONCURRENCY, the records of the batch at [i] are the
    next [concurrency] rows of the parsed file. *)
Lemma batch_records_from (csv : list (list string)) (i : Z) (k : nat) :
  0 <= i ->
  forall s : Z, 0 <= s ->
    omap (fun j => arr_get_key csv (js_add (JNum i) (JNum j))) (seqZ s (Z.of_nat k))
    = take k (drop (Z.to_nat (i + s)) csv).
Proof.
  intros Hi. induction k as [|k IH]; intros s Hs; [reflexivity|].
  rewrite seqZ_cons by lia.
  replace (Z.pred (Z.of_nat (S k))) with (Z.of_nat k) by lia.
  cbn [omap list_omap]. rewrite IH by lia.
  change (arr_get_key csv (js_add (JNum i) (JNum s))) with (arr_get csv (i + s)).
  unfold arr_get. replace (i + s <? 0) with false by (symmetry; apply Z.ltb_ge; lia).
  replace (Z.to_nat (i + Z.succ s)) with (S (Z.to_nat (i + s))) by lia.
  destruct (csv !! Z.to_nat (i + s)) as [x|] eqn:E.
  - rewrite (drop_S _ _ _ E). reflexivity.
  - apply lookup_ge_None in E.
    rewrite !drop_ge by lia. now rewrite take_nil.
Qed.

Lemma batch_records_take (csv : list (list string)) (c i : Z) :
  0 <= i -> 0 <= c ->
  batch_records (JNum c) csv (JNum i)
  = take (Z.to_nat c) (drop (Z.to_nat i) csv).
Proof.
  intros Hi Hc. unfold batch_records, inner_range. cbn [ToNumber].
  replace c with (Z.of_nat (Z.to_nat c)) at 1 by lia.
  rewrite batch_records_from by lia. now rewrite Z.add_0_r.
Qed.

Lemma partitioned_nil_inv {A} (c : nat) (groups : list (list A)) :
  partitioned c [] groups -> groups = [].
Proof.
  intros H. remember [] as l eqn:El.
  destruct H as [|g Hg Hlen|g rest gs Hlen Hrest Hp]; [reflexivity | congruence |].
  apply app_eq_nil in El as [_ ->]. congruence.
Qed.

Section NumericConcurrency.

Variable htmlToText : string -> string.
Variable send : message -> completion (option response * jsval).
Variable iterate : jsval -> reported.
Variables (SUBJECT_LINE FROM_NAME FROM_ADDRESS : string).
Variables (throttle : jsval) (c : Z).
Variables (columnNames : list string) (n emailColumnIndex : Z).
Variables (templateFileContents : string).
Variable (csv : list (list string)).

(** At least one send per batch, and [recordCount] is the number of rows
    behind the header. *)
Hypothesis concurrency_positive : 1 <= c.
Hypothesis count_is_rows : Z.of_nat (length csv) = n + 1.

Let message_of (currentRecord : list string) : message :=
  messageObject htmlToText
    (send_config_of SUBJECT_LINE FROM_NAME FROM_ADDRESS columnNames
       emailColumnIndex templateFileContents currentRecord).

Let run_loop :=
  loop htmlToText send iterate SUBJECT_LINE FROM_NAME FROM_ADDRESS throttle
    (JNum c) columnNames n emailColumnIndex templateFileContents csv.

(** Started at row [i] with enough fuel, the loop ends, and its batches
    are the rows from [i] on, cut into groups of [c]. *)
Lemma loop_partition (fuel : nat) :
  forall i, 1 <= i -> (Z.to_nat (n + 1 - i) < fuel)%nat ->
    exists bs groups,
      run_loop fuel (JNum i) = Some (Normal bs)
      /\ map b_sends bs = map (map message_of) groups
      /\ partitioned (Z.to_nat c) (drop (Z.to_nat i) csv) groups.
Proof.
  induction fuel as [|fuel IH]; intros i Hi Hfuel; [lia|].
  unfold run_loop in *. cbn [loop].
  change (js_le (JNum i) (JNum n)) with (i <=? n).
  destruct (Z.leb_spec i n) as [Hin|Hout].
  - destruct (batch_settles htmlToText iterate SUBJECT_LINE FROM_NAME
                FROM_ADDRESS throttle (JNum c) columnNames n emailColumnIndex
                templateFileContents csv send (JNum i))
      as (b & -> & _ & _ & Hs & _).
    rewrite batch_records_take in Hs by lia.
    change (js_add (JNum i) (JNum c)) with (JNum (i + c)).
    destruct (IH (i + c) ltac:(lia) ltac:(lia)) as (bs & groups & -> & Hbs & Hp).
    set (rows := drop (Z.to_nat i) csv) in *.
    assert (Hrest : drop (Z.to_nat (i + c)) csv = drop (Z.to_nat c) rows).
    { unfold rows. rewrite drop_drop. f_equal. lia. }
    assert (Hrows : length rows = Z.to_nat (n + 1 - i)).
    { unfold rows. rewrite length_drop. lia. }
    rewrite Hrest in Hp.
    destruct (le_lt_dec (length rows) (Z.to_nat c)) as [Hshort|Hlong].
    + rewrite drop_ge in Hp by exact Hshort.
      apply partitioned_nil_inv in Hp. subst groups.
      destruct bs; [|discriminate].
      exists [b], [rows]. repeat split.
      * cbn [map]. rewrite Hs, take_ge by exact Hshort. reflexivity.
      * apply partitioned_last; [|exact Hshort].
        intros E. rewrite E in Hrows. simpl in Hrows. lia.
    + exists (b :: bs), (take (Z.to_nat c) rows :: groups). repeat split.
      * cbn [map]. now rewrite Hs, Hbs.
      * rewrite <- (take_drop (Z.to_nat c) rows) at 1.
        apply partitioned_full; [rewrite length_take; lia | | exact Hp].
        intros E. apply (f_equal length) in E.
        rewrite length_drop in E. simpl in E. lia.
  - exists [], []. repeat split.
    rewrite drop_ge by lia. constructor.
Qed.

End NumericConcurrency.

(** part_001 on the spec's example: seven records in batches of three are
    sent as records 1-3, 4-6 and 7. *)
Example Part001_batches_of_three :
  (map (fun b => (b_index b, map m_to (b_sends b))) <$> completed
     (Part001.init id accepted csv_plain 8
        (seven_world (<["CONCURRENCY" := "3"]> base_config))))
  = Some [(JNum 1, [[JStr "r1@x.org"]; [JStr "r2@x.org"]; [JStr "r3@x.org"]]);
          (JNum 4, [[JStr "r4@x.org"]; [JStr "r5@x.org"]; [JStr "r6@x.org"]]);
          (JNum 7, [[JStr "r7@x.org"]])].
Proof. vm_compute. reflexivity. Qed.

(** C3 (fails on sendEmails.js).  The setting read from the config file is
    the string [3], so [i += concurrency] turns [i] into the string [13];
    [13 <= 7] is false and the loop ends after its first turn: of seven
    records only the first three are sent. *)
Theorem sendEmails_batches_of_three :
  (map (fun b => (b_index b, map m_to (b_sends b))) <$> completed
     (SendEmails.init id accepted csv_plain 8
        (seven_world (<["CONCURRENCY" := "3"]> base_config))))
  = Some [(JNum 1, [[JStr "r1@x.org"]; [JStr "r2@x.org"]; [JStr "r3@x.org"]])]
  /\ SendEmails.read_setting (JStr "3") defaults_concurrency = JStr "3"
  /\ js_add (JNum 1) (JStr "3") = JStr "13"
  /\ js_le (JStr "13") (JNum 7) = false.
Proof. repeat split; vm_compute; reflexivity. Qed.

(** part_001 on the spec's example: seven records, two per batch, the
    provider failing for the fourth. *)
Example Part001_reports :
  ((fun bs => concat (map b_reports bs)) <$> completed
     (Part001.init id fails_for_r4 csv_plain 8
        (seven_world (<["CONCURRENCY" := "2"]> base_config))))
  = Some [Sent (JNum 1) 7 (JStr "r1@x.org") "id-r1@x.org";
          Sent (JNum 2) 7 (JStr "r2@x.org") "id-r2@x.org";
          Sent (JNum 3) 7 (JStr "r3@x.org") "id-r3@x.org";
          NotSent (JNum 4) 7 (JStr "r4@x.org");
          Sent (JNum 5) 7 (JStr "r5@x.org") "id-r5@x.org";
          Sent (JNum 6) 7 (JStr "r6@x.org") "id-r6@x.org";
          Sent (JNum 7) 7 (JStr "r7@x.org") "id-r7@x.org"].
Proof. vm_compute. reflexivity. Qed.

(** C4 (fails on sendEmails.js).  With CONCURRENCY=2 from the config file
    the run stops after the first batch, so two of the seven records are
    sent.  The report goes over the promises, not over what they settled
    with, and a promise is truthy: every line is a success line whose id is
    the text of a promise.  Without CONCURRENCY all seven are sent, and the
    failed fourth is reported as a success too. *)
Theorem sendEmails_reports :
  ((fun bs => concat (map b_reports bs)) <$> completed
     (SendEmails.init id fails_for_r4 csv_plain 8
        (seven_world (<["CONCURRENCY" := "2"]> base_config))))
  = Some [Sent (JNum 1) 7 (JStr "r1@x.org") "[object Promise]";
          Sent (JNum 2) 7 (JStr "r2@x.org") "[object Promise]"]
  /\ ((fun bs => concat (map b_reports bs)) <$> completed
        (SendEmails.init id fails_for_r4 csv_plain 8 (seven_world base_config)))
     = Some [Sent (JNum 1) 7 (JStr "r1@x.org") "[object Promise]";
             Sent (JNum 2) 7 (JStr "r2@x.org") "[object Promise]";
             Sent (JNum 3) 7 (JStr "r3@x.org") "[object Promise]";
             Sent (JNum 4) 7 (JStr "r4@x.org") "[object Promise]";
             Sent (JNum 5) 7 (JStr "r5@x.org") "[object Promise]";
             Sent (JNum 6) 7 (JStr "r6@x.org") "[object Promise]";
             Sent (JNum 7) 7 (JStr "r7@x.org") "[object Promise]"]
  /\ ((fun bs => concat (map b_outcomes bs)) <$> completed
        (SendEmails.init id fails_for_r4 csv_plain 8 (seven_world base_config)))
     = Some [JStr "id-r1@x.org"; JStr "id-r2@x.org"; JStr "id-r3@x.org";
             JBool false; JStr "id-r5@x.org"; JStr "id-r6@x.org";
             JStr "id-r7@x.org"].
Proof. repeat split; vm_compute; reflexivity. Qed.

(** X12.  part_001 as a whole: when the checks pass, the operator confirms,
    the setting gives [c >= 1] sends per batch and [recordCount] is the
    number of rows behind the header, a run with enough fuel completes, and
    its batches are the rows, in order, in groups of [c]. *)
Lemma Part001_init_partition htmlToText send parse (fuel : nat) (w : world)
    (info : csv_info) (used : list string) (csv : list (list string)) (c : Z) :
  let setting k := of_option (configFile w !! k) in
  truthy (setting "SUBJECT_LINE") = true ->
  truthy (setting "FROM_NAME") = true ->
  truthy (setting "FROM_ADDRESS") = true ->
  Part001.read_setting (setting "CONCURRENCY") defaults_concurrency = JNum c ->
  1 <= c ->
  getCsvInfo parse (csvFile w) = Resolved info ->
  indexOf (columnNames info) "Email" <> -1 ->
  check_template (ToString (setting "SUBJECT_LINE")) (templateFile w)
                 (columnNames info) = Normal used ->
  confirmed w = true ->
  parse (string_of_list_byte (concat (chunks (csvFile w)))) = Normal csv ->
  Z.of_nat (length csv) = recordCount info + 1 ->
  (Z.to_nat (recordCount info) < fuel)%nat ->
  exists batches groups,
    Part001.init htmlToText send parse fuel w = Some (Normal (Completed batches))
    /\ partitioned (Z.to_nat c) (drop 1 csv) groups
    /\ map b_sends batches
       = map (map (fun currentRecord =>
                     messageObject htmlToText
                       (send_config_of (ToString (setting "SUBJECT_LINE"))
                          (ToString (setting "FROM_NAME"))
                          (ToString (setting "FROM_ADDRESS"))
                          (columnNames info)
                          (indexOf (columnNames info) "Email")
                          (templateFile w) currentRecord))) groups.
Proof.
  intros setting Hs Hn Ha Hc Hc1 Hinfo Hemail Htpl Hconf Hcsv Hlen Hfuel.
  subst setting. cbv beta in *.
  unfold Part001.init, init_with. cbv zeta beta.
  rewrite Hs, Hn, Ha. cbn [negb orb]. rewrite Hinfo.
  replace (indexOf (columnNames info) "Email" =? -1) with false
    by (symmetry; apply Z.eqb_neq; exact Hemail).
  rewrite Htpl, Hconf. cbn [negb]. rewrite Hcsv, Hc.
  destruct (loop_partition htmlToText send Value
              (ToString (of_option (configFile w !! "SUBJECT_LINE")))
              (ToString (of_option (configFile w !! "FROM_NAME")))
              (ToString (of_option (configFile w !! "FROM_ADDRESS")))
              (Part001.read_setting (of_option (configFile w !! "THROTTLE"))
                                    defaults_throttle)
              c (columnNames info) (recordCount info)
              (indexOf (columnNames info) "Email") (templateFile w) csv
              Hc1 Hlen fuel 1 ltac:(lia) ltac:(lia))
    as (bs & groups & -> & Hsends & Hp).
  exists bs, groups. repeat split; assumption.
Qed.

(* ================================================================== *)
(** * Further properties of the code                                   *)
(* ================================================================== *)

(** ** getCsvInfo on arbitrary streams *)

Lemma on_data_adds parse (cols : list string) (count : Z) (buffer : list byte) :
  match on_data parse (cols, count) buffer with
  | Normal (_, count') => count' = count + count_LF buffer
  | Throw _ => True
  end.
Proof.
  unfold on_data. rewrite count_loop_fuel.
  destruct (bool_decide (cols = [])); simpl; [|lia].
  destruct (parse _) as [records|e]; simpl; [|exact I].
  destruct (records !! 0%nat); simpl; [lia | exact I].
Qed.

Lemma feed_adds parse (bufs : list (list byte)) :
  forall (cols : list string) (count : Z),
    match feed parse (cols, count) bufs with
    | Normal (_, count') => count' = count + count_LF (concat bufs)
    | Throw _ => True
    end.
Proof.
  induction bufs as [|b bufs IH]; intros cols count; cbn [feed concat].
  - simpl. change (count_LF []) with 0. lia.
  - pose proof (on_data_adds parse cols count b) as Hb.
    destruct (on_data parse (cols, count) b) as [[cols' count']|e]; simpl;
      [|exact I].
    specialize (IH cols' count').
    destruct (feed parse (cols', count') bufs) as [[cols'' count'']|e];
      [|exact I].
    rewrite count_LF_app. lia.
Qed.

(** X1.  Whenever [getCsvInfo] resolves, whatever the parser and however
    the file is cut into chunks, the stream ended without an error and
    [recordCount] is the number of line-feed bytes of the whole file less
    one; it is never below -1. *)
Theorem getCsvInfo_resolved_count parse (file : stream) (info : csv_info) :
  getCsvInfo parse file = Resolved info ->
  ending file = OnEnd
  /\ recordCount info = count_LF (concat (chunks file)) - 1
  /\ -1 <= recordCount info.
Proof.
  unfold getCsvInfo. intros H.
  pose proof (feed_adds parse (chunks file) [] 0) as Hf.
  destruct (feed parse ([], 0) (chunks file)) as [[cols count]|e];
    [|discriminate].
  destruct (ending file); [|discriminate].
  inversion H; subst; cbn [recordCount].
  split; [reflexivity|]. split; [lia|].
  unfold count_LF. lia.
Qed.

Lemma getCsvInfo_resolved_count_witness :
  let file := {| chunks := [bytes "Email,Name
a@x.org,A"; bytes "nn
b@x.org,Bob
"]; ending := OnEnd |} in
  let info := {| columnNames := ["Email"; "Name"]; recordCount := 2 |} in
  getCsvInfo csv_plain file = Resolved info
  /\ ending file = OnEnd
  /\ recordCount info = count_LF (concat (chunks file)) - 1
  /\ -1 <= recordCount info.
Proof.
  intros file info. split; [reflexivity|].
  exact (getCsvInfo_resolved_count csv_plain file info eq_refl).
Defined.



(** X3.  When the first chunk ends before the header line does, the header
    is not completed from the next chunk: the column names are read from the
    first chunk without its last byte, and the count is that of the line
    feeds of the later chunks, less one. *)
Theorem getCsvInfo_header_cut parse (first : list byte) (rest : list (list byte))
    (cols : list string) (others : list (list string)) :
  LF ∉ first ->
  parse (string_of_list_byte (take (length first - 1) first))
  = Normal (cols :: others) ->
  cols <> [] ->
  getCsvInfo parse {| chunks := first :: rest; ending := OnEnd |}
  = Resolved {| columnNames := cols;
                recordCount := count_LF (concat rest) - 1 |}.
Proof.
  intros Hno Hp Hc.
  rewrite getCsvInfo_line_feeds with (cols := cols) (others := others);
    [|rewrite header_without_line_feed by exact Hno; exact Hp | exact Hc].
  cbn [concat]. rewrite count_LF_app, (count_LF_absent _ Hno). reflexivity.
Qed.

Lemma getCsvInfo_header_cut_witness :
  getCsvInfo csv_plain {| chunks := [bytes "Email,Na"; bytes "me
a@x.org,Ann
"]; ending := OnEnd |}
  = Resolved {| columnNames := ["Email"; "N"]; recordCount := 1 |}.
Proof.
  apply (getCsvInfo_header_cut csv_plain (bytes "Email,Na") [bytes "me
a@x.org,Ann
"] ["Email"; "N"] [] ltac:(absent) eq_refl ltac:(discriminate)).
Defined.

(** ** Tokens *)

Lemma all_word_no_at (w : string) : all_word w = true -> no_at w = true.
Proof.
  induction w as [|c w IH]; simpl; [reflexivity|].
  intros H. apply andb_true_iff in H as [Hc Hw].
  rewrite (IH Hw), andb_true_r.
  destruct (is_at c) eqn:E; [|reflexivity].
  apply is_at_not_word in E. congruence.
Qed.

Lemma scan_render (segments : list segment) :
  forallb segment_ok segments = true ->
  scan 0 (render segments)
  = flat_map (fun g => match g with
                       | Plain text => lits text
                       | Token name => [Tok name]
                       end) segments.
Proof.
  induction segments as [|[text|name] rest IH]; intros H; [reflexivity| |];
    cbn [forallb segment_ok] in H; apply andb_true_iff in H as [Hg Hrest];
    cbn [render flat_map].
  - rewrite scan_plain by exact Hg. now rewrite IH.
  - rewrite scan_token by exact Hg. now rewrite IH.
Qed.

(** X4.  What [match] returns is never an empty array, and each of its
    elements is a token [@name@] whose name is made of characters of the
    class; [slice(1, -1)] gives back that name. *)
Theorem str_match_tokens (s : string) (tokens : list string) :
  str_match s = Some tokens ->
  tokens <> []
  /\ Forall (fun t => exists w, t = token_text w /\ all_word w = true
                                /\ slice_1_m1 t = w) tokens.
Proof.
  unfold str_match. intros H.
  assert (Ht : tokens = matched_texts s /\ tokens <> []).
  { destruct (matched_texts s); [discriminate|]. inversion H. split; congruence. }
  destruct Ht as [-> Hne]. split; [exact Hne|].
  unfold matched_texts. clear H Hne.
  assert (Hall : forall p, In p (scan 0 s) ->
                   match p with Tok w => all_word w = true | Lit _ => True end).
  { intros [c|w] Hin; [exact I|].
    destruct (scan_sound _ _ _ Hin) as (_ & _ & _ & Hw). exact Hw. }
  induction (scan 0 s) as [|p l IH]; [constructor|].
  pose proof (Hall p (or_introl eq_refl)) as Hp.
  assert (Hl : forall q, In q l ->
                 match q with Tok w => all_word w = true | Lit _ => True end)
    by (intros q Hq; apply Hall; right; exact Hq).
  destruct p as [c|w]; cbn [omap list_omap]; [apply IH, Hl|].
  constructor; [|apply IH, Hl].
  exists w. repeat split; [exact Hp | apply slice_token_text].
Qed.

Lemma str_match_tokens_witness :
  str_match "Hi @Name@, @@ a@b" = Some ["@Name@"; "@@"]
  /\ Forall (fun t => exists w, t = token_text w /\ all_word w = true
                                /\ slice_1_m1 t = w) ["@Name@"; "@@"].
Proof.
  split; [reflexivity|].
  exact (proj2 (str_match_tokens "Hi @Name@, @@ a@b" ["@Name@"; "@@"] eq_refl)).
Defined.

(** X5.  On a text written as stretches without [@] and tokens,
    [replaceTokens] copies the stretches and puts each token's expansion in
    its place: the value of the first column of that name when the record has
    a non-empty one there, the token itself otherwise. *)
Theorem replaceTokens_render (segments : list segment) (keys values : list string) :
  forallb segment_ok segments = true ->
  replaceTokens (render segments) keys values = expand keys values segments.
Proof.
  induction segments as [|[text|name] rest IH]; intros H; [reflexivity| |];
    cbn [forallb segment_ok] in H; apply andb_true_iff in H as [Hg Hrest];
    cbn [render expand].
  - rewrite replaceTokens_plain by exact Hg. now rewrite IH.
  - rewrite replaceTokens_token by exact Hg. now rewrite IH.
Qed.

Lemma replaceTokens_render_witness :
  replaceTokens "Dear @Name@, write to @Email@ or @Fax@."
                ["Name"; "Email"] ["Ana"; "ana@x.com"]
  = "Dear Ana, write to ana@x.com or @Fax@.".
Proof.
  apply (replaceTokens_render
           [Plain "Dear "; Token "Name"; Plain ", write to "; Token "Email";
            Plain " or "; Token "Fax"; Plain "."]
           ["Name"; "Email"] ["Ana"; "ana@x.com"] eq_refl).
Defined.

Lemma length_append (a b : string) :
  String.length (a +:+ b) = (String.length a + String.length b)%nat.
Proof. induction a as [|c a IH]; simpl; [reflexivity | now rewrite IH]. Qed.

(** The pieces of a scan, put together again, are the text scanned. *)
Lemma scan_text (s : string) :
  String.concat EmptyString (map piece_text (scan 0 s)) = s.
Proof.
  remember (String.length s) as n eqn:Hn.
  assert (Hle : (String.length s <= n)%nat) by lia. clear Hn.
  revert s Hle. induction n as [|n IH]; intros s Hle.
  - destruct s; [reflexivity | simpl in Hle; lia].
  - destruct s as [|c r]; [reflexivity|]. cbn [scan].
    destruct (token_at (String c r)) as [w|] eqn:Hat.
    + destruct (token_at_spec _ _ Hat) as (post & Hs & _).
      unfold token_text in Hs. simpl in Hs. injection Hs as Hc Hr.
      rewrite append_assoc in Hr. simpl in Hr.
      change (String "@" post) with ("@" +:+ post) in Hr.
      rewrite <- append_assoc in Hr.
      cbn [map piece_text]. rewrite concat_cons.
      assert (Hlen : String.length (w +:+ "@") = S (String.length w)).
      { rewrite length_append. change (String.length "@") with 1%nat. lia. }
      rewrite <- Hlen, Hr, scan_skip, IH.
      * subst c. unfold token_text. simpl. reflexivity.
      * simpl in Hle. rewrite Hr, length_append in Hle. lia.
    + cbn [map piece_text]. rewrite concat_cons, IH by (simpl in Hle; lia).
      reflexivity.
Qed.

Lemma scan_matched (s : string) (w : string) :
  In (Tok w) (scan 0 s) -> In (token_text w) (matched_texts s).
Proof.
  unfold matched_texts. induction (scan 0 s) as [|p l IH]; [contradiction|].
  intros [-> | Hin]; cbn [omap list_omap].
  - left. reflexivity.
  - destruct p; [apply IH, Hin | right; apply IH, Hin].
Qed.

(** Two callbacks that agree on the tokens of a text give the same
    replacement. *)
Lemma str_replace_ext (f g : string -> string) (s : string) :
  (forall t, In t (matched_texts s) -> f t = g t) ->
  str_replace f s = str_replace g s.
Proof.
  intros H. unfold str_replace. f_equal. apply map_ext_in.
  intros [c|w] Hin; [reflexivity|]. apply H, scan_matched, Hin.
Qed.

Lemma str_replace_id (s : string) : str_replace (fun t => t) s = s.
Proof.
  unfold str_replace.
  transitivity (String.concat EmptyString (map piece_text (scan 0 s)));
    [|apply scan_text].
  f_equal.
Qed.

(** X6.  A text none of whose tokens names a column comes out of
    [replaceTokens] as it went in; so does, in particular, a text without
    tokens. *)
Theorem replaceTokens_unchanged (input : string) (keys values : list string) :
  Forall (fun t => slice_1_m1 t ∉ keys) (matched_texts input) ->
  replaceTokens input keys values = input.
Proof.
  intros H. unfold replaceTokens.
  rewrite (str_replace_ext _ (fun t => t)); [apply str_replace_id|].
  intros t Hin. rewrite Forall_forall in H.
  assert (Ht : slice_1_m1 t ∉ keys) by (apply H, list_elem_of_In, Hin).
  apply indexOf_absent in Ht. rewrite Ht. reflexivity.
Qed.

Lemma replaceTokens_unchanged_witness :
  replaceTokens "Mail a@b.org about @Fax@ (50% off)" ["Name"; "Email"] ["Ana"; "e"]
  = "Mail a@b.org about @Fax@ (50% off)".
Proof.
  apply (replaceTokens_unchanged "Mail a@b.org about @Fax@ (50% off)"
           ["Name"; "Email"] ["Ana"; "e"]).
  repeat constructor. absent.
Defined.

(** X7.  The two versions of [replaceTokens] differ only where the record
    has no value, or an empty one, for a token: on a text all of whose tokens
    find a non-empty value, part_000 and sendEmails.js give the same
    result. *)
Theorem replaceTokens_revisions_agree (input : string) (keys values : list string) :
  Forall (fun t => exists v, arr_get values (indexOf keys (slice_1_m1 t)) = Some v
                             /\ v <> EmptyString) (matched_texts input) ->
  Part000.replaceTokens input keys values = replaceTokens input keys values.
Proof.
  intros H. apply str_replace_ext. intros t Hin.
  rewrite Forall_forall in H.
  destruct (H t (proj2 (list_elem_of_In _ _) Hin)) as (v & -> & Hv).
  unfold js_or. simpl.
  destruct (String.eqb_spec v EmptyString); [contradiction | reflexivity].
Qed.

Lemma replaceTokens_revisions_agree_witness :
  Part000.replaceTokens "@Name@ <@Email@>" ["Name"; "Email"] ["Ana"; "ana@x.com"]
  = replaceTokens "@Name@ <@Email@>" ["Name"; "Email"] ["Ana"; "ana@x.com"].
Proof.
  apply (replaceTokens_revisions_agree "@Name@ <@Email@>" ["Name"; "Email"]
           ["Ana"; "ana@x.com"]).
  repeat constructor; eexists; (split; [reflexivity | discriminate]).
Defined.

Lemma render_app (a b : list segment) : render (a ++ b) = render a +:+ render b.
Proof.
  induction a as [|[text|name] a IH]; cbn [app render]; [reflexivity| |];
    rewrite IH; [|unfold token_text]; now rewrite !append_assoc.
Qed.

Lemma matched_lits (text : string) (rest : list piece) :
  omap (fun p => match p with Tok w => Some (token_text w) | Lit _ => None end)
       (lits text ++ rest)
  = omap (fun p => match p with Tok w => Some (token_text w) | Lit _ => None end)
         rest.
Proof. induction text as [|c text IH]; [reflexivity | exact IH]. Qed.

Lemma matched_texts_render (segments : list segment) :
  forallb segment_ok segments = true ->
  matched_texts (render segments) = map token_text (token_names segments).
Proof.
  intros H. unfold matched_texts. rewrite scan_render by exact H. clear H.
  induction segments as [|[text|name] rest IH]; [reflexivity| |];
    cbn [flat_map token_names omap list_omap].
  - now rewrite matched_lits.
  - cbn [app omap list_omap map]. now rewrite IH.
Qed.

(** X8.  The check reads subject line and template as one text, so a token
    can form across the seam and hide a token of the template: with columns
    [a] and [c] and no column [b], the subject [@a] and the template
    [@b@c@] pass the check, the tokens found being [@a@] and [@c@], while the
    template by itself holds the token [@b@], which [replaceTokens] then
    leaves in the message. *)
Theorem check_template_seam (a b c : string) (cols values : list string) :
  all_word a = true -> all_word b = true -> all_word c = true ->
  a ∈ cols -> c ∈ cols -> b ∉ cols ->
  let subject := "@" +:+ a in
  let template := token_text b +:+ c +:+ "@" in
  check_template subject template cols = Normal [token_text a; token_text c]
  /\ matched_texts template = [token_text b]
  /\ replaceTokens template cols values = template.
Proof.
  intros Ha Hb Hc Hina Hinc Hnb subject template.
  assert (Hjoin : subject +:+ template
                  = render [Token a; Plain b; Token c]).
  { unfold subject, template. cbn [render]. unfold token_text.
    rewrite !append_assoc, append_nil_r. reflexivity. }
  assert (Htpl : template = render [Token b; Plain c; Plain "@"]).
  { unfold template. cbn [render]. now rewrite append_nil_r. }
  assert (Hm : matched_texts template = [token_text b]).
  { rewrite Htpl. unfold matched_texts.
    change (render [Token b; Plain c; Plain "@"])
      with (token_text b +:+ (c +:+ ("@" +:+ EmptyString))).
    rewrite scan_token by exact Hb.
    rewrite scan_plain by (apply all_word_no_at, Hc).
    cbn [omap list_omap]. rewrite matched_lits. reflexivity. }
  split; [|split; [exact Hm|]].
  - unfold check_template, str_match. rewrite Hjoin.
    rewrite matched_texts_render
      by (cbn [forallb segment_ok]; rewrite Ha, Hc, (all_word_no_at b Hb);
          reflexivity).
    cbn [token_names omap list_omap map]. rewrite sort_tokens_filter.
    rewrite !filter_cons, !filter_nil, !slice_token_text.
    repeat case_decide; (reflexivity || contradiction).
  - unfold replaceTokens.
    rewrite (str_replace_ext _ (fun t => t)); [apply str_replace_id|].
    rewrite Hm. intros t [<- | []]. rewrite slice_token_text.
    apply indexOf_absent in Hnb. rewrite Hnb. reflexivity.
Qed.

Lemma check_template_seam_witness :
  check_template "@Name" "@Phone@Email@" ["Name"; "Email"]
  = Normal ["@Name@"; "@Email@"]
  /\ matched_texts "@Phone@Email@" = ["@Phone@"]
  /\ replaceTokens "@Phone@Email@" ["Name"; "Email"] ["Ana"; "ana@x.com"]
     = "@Phone@Email@".
Proof.
  apply (check_template_seam "Name" "Phone" "Email" ["Name"; "Email"]
           ["Ana"; "ana@x.com"] eq_refl eq_refl eq_refl);
    absent.
Defined.

(** X9.  For a subject line and a template written as stretches without
    [@] and tokens, a check that passes found exactly their tokens, and each
    of them names a column. *)
Theorem check_template_segments (subject template : list segment)
    (cols used : list string) :
  forallb segment_ok subject = true ->
  forallb segment_ok template = true ->
  check_template (render subject) (render template) cols = Normal used ->
  used = map token_text (token_names subject ++ token_names template)
  /\ Forall (fun name => name ∈ cols) (token_names subject ++ token_names template).
Proof.
  intros Hs Ht. unfold check_template, str_match.
  rewrite <- render_app.
  rewrite matched_texts_render by (rewrite forallb_app, Hs, Ht; reflexivity).
  unfold token_names. rewrite omap_app. fold (token_names subject).
  fold (token_names template).
  set (names := token_names subject ++ token_names template).
  destruct (map token_text names) as [|t ts] eqn:Hmap; [discriminate|].
  rewrite <- Hmap. rewrite sort_tokens_filter.
  destruct (filter (fun t => slice_1_m1 t ∉ cols) (map token_text names))
    as [|u bad] eqn:Hbad; simpl; [|discriminate].
  intros H. injection H as Hused. clear Hmap t ts.
  assert (Hall : Forall (fun name => name ∈ cols) names).
  { clear Hused. induction names as [|name names IH]; [constructor|].
    cbn [map] in Hbad. rewrite filter_cons, slice_token_text in Hbad.
    destruct (decide (name ∉ cols)) as [Hn|Hy]; [discriminate|].
    constructor; [|apply IH, Hbad].
    destruct (decide (name ∈ cols)); [assumption | contradiction]. }
  split; [|exact Hall].
  rewrite <- Hused. clear Hbad Hused.
  induction Hall as [|name names Hname _ IH]; [reflexivity|].
  cbn [map]. rewrite filter_cons, slice_token_text.
  rewrite decide_True by exact Hname. now rewrite IH.
Qed.

Lemma check_template_segments_witness :
  check_template "Hi @Name@" "<p>Dear @Name@ at @Email@</p>" ["Name"; "Email"]
  = Normal ["@Name@"; "@Name@"; "@Email@"]
  /\ Forall (fun name => name ∈ ["Name"; "Email"]) ["Name"; "Name"; "Email"].
Proof.
  split; [reflexivity|].
  exact (proj2 (check_template_segments [Plain "Hi "; Token "Name"]
                  [Plain "<p>Dear "; Token "Name"; Plain " at "; Token "Email";
                   Plain "</p>"]
                  ["Name"; "Email"] ["@Name@"; "@Name@"; "@Email@"]
                  eq_refl eq_refl eq_refl)).
Defined.

(** ** The loop on numbers *)

Lemma turns_more (i n c : Z) : 1 <= c -> i <= n -> turns i n c = S (turns (i + c) n c).
Proof.
  intros Hc Hi. unfold turns.
  replace (n - i + c) with ((n - i) + 1 * c) by lia.
  replace (n - (i + c) + c) with (n - i) by lia.
  rewrite Z.div_add by lia.
  pose proof (Z.div_pos (n - i) c ltac:(lia) ltac:(lia)). lia.
Qed.

Lemma turns_done (i n c : Z) : 1 <= c -> n < i -> turns i n c = 0%nat.
Proof.
  intros Hc Hi. unfold turns.
  assert ((n - i + c) / c < 1) by (apply Z.div_lt_upper_bound; lia). lia.
Qed.

Section NumericLoop.

Variable htmlToText : string -> string.
Variable send : message -> completion (option response * jsval).
Variable iterate : jsval -> reported.
Variables (SUBJECT_LINE FROM_NAME FROM_ADDRESS : string).
Variables (throttle : jsval) (c : Z).
Variables (columnNames : list string) (n emailColumnIndex : Z).
Variables (templateFileContents : string).
Variable (csv : list (list string)).

Hypothesis concurrency_positive : 1 <= c.

Let message_of (currentRecord : list string) : message :=
  messageObject htmlToText
    (send_config_of SUBJECT_LINE FROM_NAME FROM_ADDRESS columnNames
       emailColumnIndex templateFileContents currentRecord).

Let run_loop :=
  loop htmlToText send iterate SUBJECT_LINE FROM_NAME FROM_ADDRESS throttle
    (JNum c) columnNames n emailColumnIndex templateFileContents csv.

(** With enough fuel the loop ends after [turns] batches; batch [k] starts
    at row [i + k c] and sends the rows of the file from there, up to [c] of
    them. *)
Lemma loop_numeric (fuel : nat) :
  forall i, 1 <= i -> (turns i n c < fuel)%nat ->
    exists bs,
      run_loop fuel (JNum i) = Some (Normal bs)
      /\ map (fun b => (b_index b, b_sends b)) bs
         = map (fun k : nat =>
                  (JNum (i + Z.of_nat k * c),
                   map message_of (rows_at csv (i + Z.of_nat k * c) c)))
               (seq 0 (turns i n c)).
Proof.
  induction fuel as [|fuel IH]; intros i Hi Hfuel; [lia|].
  unfold run_loop in *. cbn [loop].
  change (js_le (JNum i) (JNum n)) with (i <=? n).
  destruct (Z.leb_spec i n) as [Hin|Hout].
  - destruct (batch_settles htmlToText iterate SUBJECT_LINE FROM_NAME
                FROM_ADDRESS throttle (JNum c) columnNames n emailColumnIndex
                templateFileContents csv send (JNum i))
      as (b & -> & Hidx & _ & Hs & _).
    rewrite batch_records_take in Hs by lia.
    change (js_add (JNum i) (JNum c)) with (JNum (i + c)).
    rewrite (turns_more i n c) in * by lia.
    destruct (IH (i + c) ltac:(lia) ltac:(lia)) as (bs & -> & Hbs).
    exists (b :: bs). split; [reflexivity|].
    rewrite <- cons_seq, <- fmap_S_seq. cbn [map].
    rewrite Hidx, Hs, Hbs. unfold rows_at.
    change (Z.of_nat 0) with 0. rewrite Z.mul_0_l, Z.add_0_r. f_equal.
    rewrite <- list_fmap_compose. apply map_ext. intros k. cbn.
    replace (i + c + Z.of_nat k * c) with (i + Z.of_nat (S k) * c) by lia.
    reflexivity.
  - rewrite (turns_done i n c) by lia. exists []. split; reflexivity.
Qed.

End NumericLoop.

Section CheckedRuns.

Variable htmlToText : string -> string.
Variable send : message -> completion (option response * jsval).
Variable parse : string -> completion (list (list string)).
Variable iterate : jsval -> reported.
Variable read_setting : jsval -> Z -> jsval.

(** A run whose checks pass is the loop started at the first data row. *)
Lemma init_with_checked (fuel : nat) (w : world) (info : csv_info)
    (csv : list (list string)) :
  reaches_loop parse w info csv ->
  init_with htmlToText send parse iterate read_setting fuel w
  = match loop htmlToText send iterate
            (ToString (of_option (configFile w !! "SUBJECT_LINE")))
            (ToString (of_option (configFile w !! "FROM_NAME")))
            (ToString (of_option (configFile w !! "FROM_ADDRESS")))
            (read_setting (of_option (configFile w !! "THROTTLE")) defaults_throttle)
            (read_setting (of_option (configFile w !! "CONCURRENCY"))
                          defaults_concurrency)
            (columnNames info) (recordCount info)
            (indexOf (columnNames info) "Email") (templateFile w) csv
            fuel (JNum 1) with
    | None => None
    | Some (Throw e) => Some (Throw e)
    | Some (Normal batches) => Some (Normal (Completed batches))
    end.
Proof.
  intros (Hs & Hn & Ha & Hinfo & Hemail & [used Htpl] & Hconf & Hcsv).
  unfold init_with. cbv zeta beta.
  rewrite Hs, Hn, Ha. cbn [negb orb]. rewrite Hinfo.
  replace (indexOf (columnNames info) "Email" =? -1) with false
    by (symmetry; apply Z.eqb_neq; exact Hemail).
  rewrite Htpl, Hconf. cbn [negb]. rewrite Hcsv. reflexivity.
Qed.

(** With a number [c >= 1] for CONCURRENCY, a run whose checks pass
    completes, in [turns] batches of the rows from row 1 on. *)
Lemma init_with_numeric (fuel : nat) (w : world) (info : csv_info)
    (csv : list (list string)) (c : Z) :
  reaches_loop parse w info csv ->
  read_setting (of_option (configFile w !! "CONCURRENCY")) defaults_concurrency
  = JNum c ->
  1 <= c ->
  (turns 1 (recordCount info) c < fuel)%nat ->
  exists batches,
    init_with htmlToText send parse iterate read_setting fuel w
    = Some (Normal (Completed batches))
    /\ map (fun b => (b_index b, b_sends b)) batches
       = map (fun k : nat =>
                (JNum (1 + Z.of_nat k * c),
                 map (message_for htmlToText w info)
                     (rows_at csv (1 + Z.of_nat k * c) c)))
             (seq 0 (turns 1 (recordCount info) c)).
Proof.
  intros Hreach Hc Hc1 Hfuel.
  rewrite (init_with_checked fuel w info csv Hreach), Hc.
  destruct (loop_numeric htmlToText send iterate
              (ToString (of_option (configFile w !! "SUBJECT_LINE")))
              (ToString (of_option (configFile w !! "FROM_NAME")))
              (ToString (of_option (configFile w !! "FROM_ADDRESS")))
              (read_setting (of_option (configFile w !! "THROTTLE")) defaults_throttle)
              c (columnNames info) (recordCount info)
              (indexOf (columnNames info) "Email") (templateFile w) csv
              Hc1 fuel 1 ltac:(lia) Hfuel) as (bs & -> & Hbs).
  exists bs. split; [reflexivity | exact Hbs].
Qed.

End CheckedRuns.

(** Closed instances of [reaches_loop] are settled by evaluation. *)
Ltac reach :=
  repeat split;
  first [ vm_compute; reflexivity
        | vm_compute; discriminate
        | eexists; vm_compute; reflexivity ].

(** X10.  In part_001, when the checks pass and CONCURRENCY reads as a
    number [c >= 1], a run with enough fuel completes.  It makes as many
    batches as [recordCount] needs groups of [c] (none when [recordCount] is
    not positive); batch [k] starts at row [1 + k c] and hands over, in
    order, the up to [c] rows of the parsed file from there on. *)
Theorem Part001_init_batches htmlToText send parse (fuel : nat) (w : world)
    (info : csv_info) (csv : list (list string)) (c : Z) :
  reaches_loop parse w info csv ->
  parseInt (of_option (configFile w !! "CONCURRENCY")) = Some c ->
  1 <= c ->
  (turns 1 (recordCount info) c < fuel)%nat ->
  exists batches,
    Part001.init htmlToText send parse fuel w = Some (Normal (Completed batches))
    /\ map (fun b => (b_index b, b_sends b)) batches
       = map (fun k : nat =>
                (JNum (1 + Z.of_nat k * c),
                 map (message_for htmlToText w info)
                     (rows_at csv (1 + Z.of_nat k * c) c)))
             (seq 0 (turns 1 (recordCount info) c)).
Proof.
  intros Hreach Hc Hc1 Hfuel.
  apply (init_with_numeric htmlToText send parse Value Part001.read_setting
           fuel w info csv c Hreach); [|exact Hc1 | exact Hfuel].
  unfold Part001.read_setting, js_or. rewrite Hc. simpl.
  destruct (Z.eqb_spec c 0); [lia | reflexivity].
Qed.

Lemma Part001_init_batches_witness :
  let w := seven_world (<["CONCURRENCY" := "3"]> base_config) in
  exists batches,
    Part001.init id accepted csv_plain 8 w = Some (Normal (Completed batches))
    /\ map (fun b => (b_index b, b_sends b)) batches
       = map (fun k : nat =>
                (JNum (1 + Z.of_nat k * 3),
                 map (message_for id w seven_info)
                     (rows_at seven_rows (1 + Z.of_nat k * 3) 3)))
             (seq 0 (turns 1 (recordCount seven_info) 3)).
Proof.
  intros w.
  apply (Part001_init_batches id accepted csv_plain 8 w seven_info seven_rows 3);
    [reach | reflexivity | lia | vm_compute; lia].
Defined.

Lemma concat_singles {A} (l : list A) (a m : nat) :
  concat (map (fun k : nat => take 1 (drop (a + k) l)) (seq 0 m))
  = take m (drop a l).
Proof.
  induction m as [|m IH]; [reflexivity|].
  rewrite seq_S, map_app, concat_app, IH. cbn [map concat Nat.add].
  rewrite app_nil_r, <- drop_drop, take_take_drop.
  replace (m + 1)%nat with (S m) by lia. reflexivity.
Qed.



Lemma Part001_init_partition_witness :
  let w := seven_world (<["CONCURRENCY" := "3"]> base_config) in
  exists batches groups,
    Part001.init id accepted csv_plain 8 w = Some (Normal (Completed batches))
    /\ partitioned 3 (drop 1 seven_rows) groups
    /\ map b_sends batches = map (map (message_for id w seven_info)) groups.
Proof.
  intros w.
  apply (Part001_init_partition id accepted csv_plain 8 w seven_info
           ["@Name@"; "@Name@"; "@Email@"] seven_rows 3);
    first [ vm_compute; reflexivity | vm_compute; discriminate
          | lia | vm_compute; lia ].
Defined.

Lemma getCsvInfo_resolved_line_feeds parse (file : stream) (info : csv_info) :
  getCsvInfo parse file = Resolved info ->
  recordCount info = count_LF (concat (chunks file)) - 1.
Proof.
  unfold getCsvInfo. intros H.
  pose proof (feed_adds parse (chunks file) [] 0) as Hf.
  destruct (feed parse ([], 0) (chunks file)) as [[cols count]|e];
    [|discriminate].
  destruct (ending file); [|discriminate].
  inversion H; subst; cbn [recordCount]. lia.
Qed.

(** X13.  A CSV file whose last row is not followed by a line feed loses
    that row: without a CONCURRENCY setting, when the parser finds every row
    of the file, a run whose checks pass completes in both sendEmails.js and
    part_001 and hands over every row but the last. *)
Theorem last_row_left_out htmlToText send parse (fuel : nat) (w : world)
    (info : csv_info) (csv : list (list string))
    (header : list byte) (rows : list (list byte)) :
  reaches_loop parse w info csv ->
  concat (chunks (csvFile w)) = separated (header :: rows) ->
  LF ∉ header ->
  Forall (fun row => LF ∉ row) rows ->
  rows <> [] ->
  length csv = S (length rows) ->
  configFile w !! "CONCURRENCY" = None ->
  (length rows <= fuel)%nat ->
  (exists batches,
     SendEmails.init htmlToText send parse fuel w
     = Some (Normal (Completed batches))
     /\ concat (map b_sends batches)
        = map (message_for htmlToText w info) (removelast (drop 1 csv)))
  /\ (exists batches,
        Part001.init htmlToText send parse fuel w
        = Some (Normal (Completed batches))
        /\ concat (map b_sends batches)
           = map (message_for htmlToText w info) (removelast (drop 1 csv))).
Proof.
  intros Hreach Hfile Hh Hrows Hne Hlen Hc Hfuel.
  assert (Hcount : recordCount info = Z.of_nat (length rows) - 1).
  { destruct Hreach as (_ & _ & _ & Hinfo & _).
    rewrite (getCsvInfo_resolved_line_feeds _ _ _ Hinfo), Hfile.
    rewrite count_LF_separated by (try constructor; try assumption; discriminate).
    simpl length. lia. }
  assert (Hturns : turns 1 (recordCount info) 1 = (length rows - 1)%nat).
  { unfold turns. rewrite Z.div_1_r. lia. }
  assert (Hall : forall iterate read_setting,
             read_setting (of_option (configFile w !! "CONCURRENCY"))
                          defaults_concurrency = JNum 1 ->
             exists batches,
               init_with htmlToText send parse iterate read_setting fuel w
               = Some (Normal (Completed batches))
               /\ concat (map b_sends batches)
                  = map (message_for htmlToText w info) (removelast (drop 1 csv))).
  { intros iterate read_setting Hread.
    destruct (init_with_numeric htmlToText send parse iterate read_setting
                fuel w info csv 1 Hreach Hread)
      as (batches & Hrun & Hb); [lia | rewrite Hturns; destruct rows; simpl in *; [congruence | lia] |].
    exists batches. split; [exact Hrun|].
    rewrite Hturns in Hb.
    apply (f_equal (map snd)) in Hb. rewrite !map_map in Hb. cbn [snd] in Hb.
    change (map (fun b => b_sends b) batches) with (map b_sends batches) in Hb.
    rewrite Hb.
    transitivity (concat (map (map (message_for htmlToText w info))
                    (map (fun k : nat => take 1 (drop (1 + k) csv))
                         (seq 0 (length rows - 1))))).
    - rewrite map_map. f_equal. apply map_ext. intros k.
      unfold rows_at. do 3 f_equal. lia.
    - rewrite <- concat_map, concat_singles. f_equal.
      rewrite removelast_firstn_len, length_drop, Hlen.
      f_equal. lia. }
  split; apply Hall; rewrite Hc; reflexivity.
Qed.

Lemma last_row_left_out_witness :
  let w := {| configFile := base_config;
              csvFile := whole_file "Name,Email
r1,r1@x.org
r2,r2@x.org";
              templateFile := "<p>Dear @Name@</p>";
              confirmed := true |} in
  let info := {| columnNames := ["Name"; "Email"]; recordCount := 1 |} in
  exists batches,
    SendEmails.init id accepted csv_plain 2 w = Some (Normal (Completed batches))
    /\ concat (map b_sends batches)
       = map (message_for id w info) [["r1"; "r1@x.org"]].
Proof.
  intros w info.
  apply (proj1 (last_row_left_out id accepted csv_plain 2 w info
                  [["Name"; "Email"]; ["r1"; "r1@x.org"]; ["r2"; "r2@x.org"]]
                  (bytes "Name,Email") [bytes "r1,r1@x.org"; bytes "r2,r2@x.org"]
                  ltac:(reach) eq_refl ltac:(absent)
                  ltac:(repeat constructor; absent) ltac:(discriminate)
                  eq_refl eq_refl ltac:(simpl; lia))).
Defined.

(** ** The loop with the setting of the config file *)

Section StringConcurrency.

Variable htmlToText : string -> string.
Variable send : message -> completion (option response * jsval).
Variable iterate : jsval -> reported.
Variables (SUBJECT_LINE FROM_NAME FROM_ADDRESS : string).
Variables (throttle : jsval) (s : string) (c : Z).
Variables (columnNames : list string) (n emailColumnIndex : Z).
Variables (templateFileContents : string).
Variable (csv : list (list string)).

Hypothesis setting_number : StringToNumber s = Some c.
Hypothesis concurrency_positive : 1 <= c.
Hypothesis some_record : 1 <= n.
Hypothesis second_index :
  match StringToNumber ("1" +:+ s) with
  | Some m => n < m
  | None => True
  end.

(** The first [i += concurrency] makes [i] the text of 1 followed by the
    setting, and the loop ends there. *)
Lemma loop_string (fuel : nat) :
  exists b,
    loop htmlToText send iterate SUBJECT_LINE FROM_NAME FROM_ADDRESS throttle
         (JStr s) columnNames n emailColumnIndex templateFileContents csv
         (S (S fuel)) (JNum 1)
    = Some (Normal [b])
    /\ b_index b = JNum 1
    /\ b_sends b
       = map (fun currentRecord =>
                messageObject htmlToText
                  (send_config_of SUBJECT_LINE FROM_NAME FROM_ADDRESS columnNames
                     emailColumnIndex templateFileContents currentRecord))
             (rows_at csv 1 c).
Proof.
  cbn [loop]. change (js_le (JNum 1) (JNum n)) with (1 <=? n).
  replace (1 <=? n) with true by (symmetry; apply Z.leb_le; exact some_record).
  destruct (batch_settles htmlToText iterate SUBJECT_LINE FROM_NAME
              FROM_ADDRESS throttle (JStr s) columnNames n emailColumnIndex
              templateFileContents csv send (JNum 1))
    as (b & -> & Hidx & _ & Hs & _).
  change (js_add (JNum 1) (JStr s)) with (JStr ("1" +:+ s)).
  assert (Hstop : js_le (JStr ("1" +:+ s)) (JNum n) = false).
  { unfold js_le. cbn [ToNumber].
    destruct (StringToNumber ("1" +:+ s)) as [m|]; [|reflexivity].
    apply Z.leb_gt. exact second_index. }
  rewrite Hstop. exists b. split; [reflexivity|]. split; [exact Hidx|].
  rewrite Hs. f_equal. unfold batch_records, inner_range. cbn [ToNumber].
  rewrite setting_number.
  replace c with (Z.of_nat (Z.to_nat c)) at 1 by lia.
  rewrite batch_records_from by lia. reflexivity.
Qed.

End StringConcurrency.

(** X14.  In sendEmails.js a CONCURRENCY setting of the config file stays a
    string: when it reads as a number [c >= 1], there is at least one record
    and [recordCount] is below the number that 1 followed by the setting
    reads as (or that text is no number), a run whose checks pass makes one
    batch, of the first [c] rows behind the header, and ends. *)
Theorem SendEmails_first_batch_only htmlToText send parse (fuel : nat) (w : world)
    (info : csv_info) (csv : list (list string)) (s : string) (c : Z) :
  reaches_loop parse w info csv ->
  configFile w !! "CONCURRENCY" = Some s ->
  StringToNumber s = Some c ->
  1 <= c ->
  1 <= recordCount info ->
  match StringToNumber ("1" +:+ s) with
  | Some m => recordCount info < m
  | None => True
  end ->
  exists b,
    SendEmails.init htmlToText send parse (S (S fuel)) w
    = Some (Normal (Completed [b]))
    /\ b_index b = JNum 1
    /\ b_sends b = map (message_for htmlToText w info) (rows_at csv 1 c).
Proof.
  intros Hreach Hcfg Hs Hc Hn Hm.
  unfold SendEmails.init.
  rewrite (init_with_checked htmlToText send parse Promise SendEmails.read_setting
             (S (S fuel)) w info csv Hreach), Hcfg.
  assert (Hread : SendEmails.read_setting (of_option (Some s)) defaults_concurrency
                  = JStr s).
  { unfold SendEmails.read_setting, js_or. simpl.
    destruct s; [vm_compute in Hs; inversion Hs; lia | reflexivity]. }
  rewrite Hread.
  destruct (loop_string htmlToText send Promise
              (ToString (of_option (configFile w !! "SUBJECT_LINE")))
              (ToString (of_option (configFile w !! "FROM_NAME")))
              (ToString (of_option (configFile w !! "FROM_ADDRESS")))
              (SendEmails.read_setting (of_option (configFile w !! "THROTTLE"))
                                       defaults_throttle)
              s c (columnNames info) (recordCount info)
              (indexOf (columnNames info) "Email") (templateFile w) csv
              Hs Hc Hn Hm fuel) as (b & -> & Hidx & Hsends).
  exists b. repeat split; assumption.
Qed.

Lemma SendEmails_first_batch_only_witness :
  let w := seven_world (<["CONCURRENCY" := "3"]> base_config) in
  exists b,
    SendEmails.init id accepted csv_plain 2 w = Some (Normal (Completed [b]))
    /\ b_index b = JNum 1
    /\ b_sends b = map (message_for id w seven_info) (rows_at seven_rows 1 3).
Proof.
  intros w.
  apply (SendEmails_first_batch_only id accepted csv_plain 0 w seven_info
           seven_rows "3" 3);
    [reach | reflexivity | reflexivity | lia | cbn; lia
    | vm_compute; reflexivity].
Defined.

(** With a negative step the index never passes [recordCount]. *)
Lemma loop_negative htmlToText send iterate (SUBJECT_LINE FROM_NAME FROM_ADDRESS : string)
    (throttle : jsval) (c : Z) (columnNames : list string) (n emailColumnIndex : Z)
    (templateFileContents : string) (csv : list (list string)) (fuel : nat) :
  c < 0 ->
  forall i, i <= n ->
    loop htmlToText send iterate SUBJECT_LINE FROM_NAME FROM_ADDRESS throttle
         (JNum c) columnNames n emailColumnIndex templateFileContents csv
         fuel (JNum i)
    = None.
Proof.
  intros Hc. induction fuel as [|fuel IH]; intros i Hi; [reflexivity|].
  cbn [loop]. change (js_le (JNum i) (JNum n)) with (i <=? n).
  replace (i <=? n) with true by (symmetry; apply Z.leb_le; exact Hi).
  destruct (batch_settles htmlToText iterate SUBJECT_LINE FROM_NAME
              FROM_ADDRESS throttle (JNum c) columnNames n emailColumnIndex
              templateFileContents csv send (JNum i)) as (b & -> & _).
  change (js_add (JNum i) (JNum c)) with (JNum (i + c)).
  rewrite IH by lia. reflexivity.
Qed.

(** X15.  In part_001 a negative CONCURRENCY is taken as it is: when the
    checks pass and there is at least one record, the loop steps backwards
    from row 1 and never ends; no amount of fuel completes the run, and no
    batch of it sends anything. *)
Theorem Part001_negative_concurrency htmlToText send parse (w : world)
    (info : csv_info) (csv : list (list string)) (c : Z) :
  reaches_loop parse w info csv ->
  parseInt (of_option (configFile w !! "CONCURRENCY")) = Some c ->
  c < 0 ->
  1 <= recordCount info ->
  (forall fuel, Part001.init htmlToText send parse fuel w = None)
  /\ forall i, batch_records (JNum c) csv i = [].
Proof.
  intros Hreach Hc Hneg Hn. split.
  - intros fuel. unfold Part001.init.
    rewrite (init_with_checked htmlToText send parse Value Part001.read_setting
               fuel w info csv Hreach).
    assert (Hread : Part001.read_setting
                      (of_option (configFile w !! "CONCURRENCY"))
                      defaults_concurrency = JNum c).
    { unfold Part001.read_setting, js_or. rewrite Hc. simpl.
      destruct (Z.eqb_spec c 0); [lia | reflexivity]. }
    rewrite Hread, loop_negative by lia. reflexivity.
  - intros i. unfold batch_records, inner_range. cbn [ToNumber].
    rewrite seqZ_nil by lia. reflexivity.
Qed.

Lemma Part001_negative_concurrency_witness :
  Part001.init id accepted csv_plain 1000
    (seven_world (<["CONCURRENCY" := "-2"]> base_config)) = None.
Proof.
  apply (proj1 (Part001_negative_concurrency id accepted csv_plain
                  (seven_world (<["CONCURRENCY" := "-2"]> base_config))
                  seven_info seven_rows (-2)
                  ltac:(reach) eq_refl ltac:(lia) ltac:(cbn; lia))).
Defined.

(** ** Report lines *)

Section ReportFacts.

Variable htmlToText : string -> string.
Variable send : message -> completion (option response * jsval).
Variable iterate : jsval -> reported.
Variables (SUBJECT_LINE FROM_NAME FROM_ADDRESS : string).
Variables (throttle concurrency : jsval).
Variables (columnNames : list string) (recordCount emailColumnIndex : Z).
Variables (templateFileContents : string).
Variable (csvFileContents : list (list string)).

Let run_batch :=
  batch htmlToText send iterate SUBJECT_LINE FROM_NAME FROM_ADDRESS throttle
    concurrency columnNames recordCount emailColumnIndex templateFileContents
    csvFileContents.

Let run_loop :=
  loop htmlToText send iterate SUBJECT_LINE FROM_NAME FROM_ADDRESS throttle
    concurrency columnNames recordCount emailColumnIndex templateFileContents
    csvFileContents.

(** The report of a batch has one line per message: line [k] is about the
    message [k], its address and what the send settled with, seen through
    [iterate]. *)
Lemma batch_reports (i : jsval) (b : batch_run) :
  run_batch i = Normal b ->
  b_reports b
  = imap (fun k m =>
            report_line recordCount (b_index b)
              (map (fun m' => default JUndef (head (m_to m'))) (b_sends b))
              k (iterate (settle (send m))))
         (b_sends b).
Proof.
  unfold run_batch, batch.
  rewrite (map_ext _ (fun r => Normal (settle (send (messageObject htmlToText
             (send_config_of SUBJECT_LINE FROM_NAME FROM_ADDRESS columnNames
                emailColumnIndex templateFileContents r))))))
    by (intros r; apply sendOneEmail_settle).
  rewrite (Promise_all_settled
             (fun r => settle (send (messageObject htmlToText
                (send_config_of SUBJECT_LINE FROM_NAME FROM_ADDRESS columnNames
                   emailColumnIndex templateFileContents r))))).
  intros H. injection H as <-. cbn [b_reports b_index b_sends].
  rewrite !map_map. cbn [messageObject m_to head default sc_to send_config_of].
  rewrite !imap_fmap. apply imap_ext. intros k r _. reflexivity.
Qed.

Lemma loop_batches (fuel : nat) :
  forall i bs, run_loop fuel i = Some (Normal bs) ->
    Forall (fun b => exists j, run_batch j = Normal b) bs.
Proof.
  induction fuel as [|fuel IH]; intros i bs; [discriminate|].
  unfold run_loop in *. cbn [loop].
  destruct (js_le i (JNum recordCount));
    [|intros H; injection H as <-; constructor].
  fold (run_batch i).
  destruct (run_batch i) as [b|e] eqn:Hb; [|discriminate].
  specialize (IH (js_add i concurrency)).
  destruct (loop _ _ _ _ _ _ _ _ _ _ _ _ _ fuel _) as [[rest|e]|];
    [|discriminate..].
  intros H. injection H as <-. constructor; [eauto | apply IH; reflexivity].
Qed.

End ReportFacts.

(** X16.  sendEmails.js never reports a failure: in every run that
    completes, each batch has one report line per message handed to the
    provider, and every line is a success line whose id is the text of a
    promise, whatever the provider answered. *)
Theorem SendEmails_reports_all_sent htmlToText send parse (fuel : nat) (w : world)
    (batches : list batch_run) :
  completed (SendEmails.init htmlToText send parse fuel w) = Some batches ->
  Forall (fun b =>
            length (b_reports b) = length (b_sends b)
            /\ Forall (fun line => exists index total address,
                         line = Sent index total address "[object Promise]")
                      (b_reports b)) batches.
Proof.
  unfold SendEmails.init.
  destruct (init_with_cases htmlToText parse Promise SendEmails.read_setting w)
    as [(r & Hshape & Hr) | (s & n & a & c & k & e & csv & H)].
  - rewrite Hr. destruct Hshape as [-> | [x ->]]; discriminate.
  - rewrite H.
    destruct (loop _ _ _ _ _ _ _ _ _ _ _ _ _ fuel _) as [[bs|x]|] eqn:Hl;
      [|discriminate..].
    intros Hc. injection Hc as <-.
    apply loop_batches in Hl. eapply Forall_impl; [exact Hl|].
    intros b [j Hb]. cbv beta in Hb.
    rewrite (batch_reports _ _ _ _ _ _ _ _ _ _ _ _ _ _ _ Hb).
    split; [apply length_imap|].
    apply Forall_forall. intros line Hin.
    apply list_elem_of_lookup in Hin as [pos Hpos].
    rewrite list_lookup_imap in Hpos.
    destruct (b_sends b !! pos) as [m|]; [|discriminate].
    injection Hpos as <-. unfold report_line. cbn. eauto.
Qed.

Lemma SendEmails_reports_all_sent_witness :
  Forall (fun b =>
            length (b_reports b) = length (b_sends b)
            /\ Forall (fun line => exists index total address,
                         line = Sent index total address "[object Promise]")
                      (b_reports b))
    (default [] (completed
       (SendEmails.init id fails_for_r4 csv_plain 8 (seven_world base_config)))).
Proof.
  apply (SendEmails_reports_all_sent id fails_for_r4 csv_plain 8
           (seven_world base_config)).
  vm_compute. reflexivity.
Defined.

(** X17.  In part_001 the report follows the provider: in a run that
    completes, line [k] of a batch is about message [k] of that batch, with
    index [i + k], the total [recordCount] and the message's address; it is
    a success line carrying the id exactly when the send settled with a
    non-empty id, and a failure line otherwise.  A message accepted with
    status 202 but no [x-message-id] header is thus reported as failed. *)
Theorem Part001_reports_follow htmlToText send parse (fuel : nat) (w : world)
    (info : csv_info) (csv : list (list string)) (batches : list batch_run) :
  reaches_loop parse w info csv ->
  completed (Part001.init htmlToText send parse fuel w) = Some batches ->
  Forall (fun b =>
            b_reports b
            = imap (fun k m =>
                      let index := js_add (b_index b) (JNum (Z.of_nat k)) in
                      let address := default JUndef (head (m_to m)) in
                      let value := settle (send m) in
                      if truthy value
                      then Sent index (recordCount info) address (ToString value)
                      else NotSent index (recordCount info) address)
                   (b_sends b)) batches
  /\ forall m r reject,
       send m = Normal (Some r, reject) -> truthy reject = false ->
       statusCode r = 202 -> headers r !! "x-message-id" = None ->
       truthy (settle (send m)) = false.
Proof.
  intros Hreach Hrun. split.
  - revert Hrun. unfold Part001.init.
    rewrite (init_with_checked htmlToText send parse Value Part001.read_setting
               fuel w info csv Hreach).
    destruct (loop _ _ _ _ _ _ _ _ _ _ _ _ _ fuel _) as [[bs|x]|] eqn:Hl;
      [|discriminate..].
    intros Hc. injection Hc as <-.
    apply loop_batches in Hl. eapply Forall_impl; [exact Hl|].
    intros b [j Hb]. cbv beta in Hb.
    rewrite (batch_reports _ _ _ _ _ _ _ _ _ _ _ _ _ _ _ Hb).
    apply imap_ext. intros k m Hm. unfold report_line.
    rewrite list_lookup_fmap, Hm. reflexivity.
  - intros m r reject -> Hrej Hst Hhd. cbn [settle].
    rewrite Hrej, Hst, Hhd. reflexivity.
Qed.

Lemma Part001_reports_follow_witness :
  let w := seven_world (<["CONCURRENCY" := "2"]> base_config) in
  Forall (fun b =>
            b_reports b
            = imap (fun k m =>
                      let index := js_add (b_index b) (JNum (Z.of_nat k)) in
                      let address := default JUndef (head (m_to m)) in
                      let value := settle (fails_for_r4 m) in
                      if truthy value
                      then Sent index (recordCount seven_info) address (ToString value)
                      else NotSent index (recordCount seven_info) address)
                   (b_sends b))
    (default [] (completed (Part001.init id fails_for_r4 csv_plain 8 w))).
Proof.
  intros w.
  apply (proj1 (Part001_reports_follow id fails_for_r4 csv_plain 8 w seven_info
                  seven_rows _ ltac:(reach) ltac:(vm_compute; reflexivity))).
Defined.

(** ** The checks of init *)

(** X18.  When one of SUBJECT_LINE, FROM_NAME and FROM_ADDRESS is missing
    from the config file, or is there with an empty value, sendEmails.js and
    part_001 throw the error that names the three settings, before the CSV
    file is looked at and whatever else the config file holds. *)
Theorem init_missing_setting htmlToText send parse (fuel : nat) (w : world)
    (k : string) :
  k ∈ ["SUBJECT_LINE"; "FROM_NAME"; "FROM_ADDRESS"] ->
  configFile w !! k = None \/ configFile w !! k = Some EmptyString ->
  SendEmails.init htmlToText send parse fuel w = Some (Throw missing_setting_error)
  /\ Part001.init htmlToText send parse fuel w = Some (Throw missing_setting_error).
Proof.
  intros Hk Hmiss.
  assert (Hfalsy : truthy (of_option (configFile w !! k)) = false)
    by (destruct Hmiss as [-> | ->]; reflexivity).
  assert (Hor : negb (truthy (of_option (configFile w !! "SUBJECT_LINE")))
                || negb (truthy (of_option (configFile w !! "FROM_NAME")))
                || negb (truthy (of_option (configFile w !! "FROM_ADDRESS")))
                = true).
  { repeat (apply elem_of_cons in Hk as [-> | Hk]);
      [..|apply elem_of_nil in Hk; contradiction];
      rewrite Hfalsy; cbn [negb orb]; rewrite ?orb_true_r; reflexivity. }
  unfold SendEmails.init, Part001.init, init_with. cbv zeta beta.
  rewrite Hor. split; reflexivity.
Qed.

Lemma init_missing_setting_witness :
  SendEmails.init id accepted csv_plain 8
    (seven_world (<["FROM_NAME" := EmptyString]> base_config))
  = Some (Throw missing_setting_error).
Proof.
  apply (proj1 (init_missing_setting id accepted csv_plain 8
                  (seven_world (<["FROM_NAME" := EmptyString]> base_config))
                  "FROM_NAME" ltac:(absent) ltac:(right; reflexivity))).
Defined.

(** X19.  When the three settings are there and the scan of the CSV file
    resolves with column names that do not hold exactly [Email], both
    revisions throw the error about the missing column: nothing is sent, and
    template and confirmation are not reached. *)
Theorem init_missing_email htmlToText send parse (fuel : nat) (w : world)
    (info : csv_info) :
  truthy (of_option (configFile w !! "SUBJECT_LINE")) = true ->
  truthy (of_option (configFile w !! "FROM_NAME")) = true ->
  truthy (of_option (configFile w !! "FROM_ADDRESS")) = true ->
  getCsvInfo parse (csvFile w) = Resolved info ->
  "Email" ∉ columnNames info ->
  SendEmails.init htmlToText send parse fuel w = Some (Throw missing_email_error)
  /\ Part001.init htmlToText send parse fuel w = Some (Throw missing_email_error).
Proof.
  intros Hs Hn Ha Hinfo Hno. apply indexOf_absent in Hno.
  unfold SendEmails.init, Part001.init, init_with. cbv zeta beta.
  rewrite Hs, Hn, Ha. cbn [negb orb]. rewrite Hinfo, Hno.
  split; reflexivity.
Qed.

Lemma init_missing_email_witness :
  let w := {| configFile := base_config;
              csvFile := whole_file "Name,email
r1,r1@x.org
";
              templateFile := "<p>Dear @Name@</p>";
              confirmed := true |} in
  SendEmails.init id accepted csv_plain 8 w = Some (Throw missing_email_error).
Proof.
  intros w.
  apply (proj1 (init_missing_email id accepted csv_plain 8 w
                  {| columnNames := ["Name"; "email"]; recordCount := 1 |}
                  eq_refl eq_refl eq_refl eq_refl ltac:(absent))).
Defined.

(** X20.  When every check passes and the operator declines, both
    revisions return without a batch, whatever the provider would answer and
    whatever the parser would make of the whole file. *)
Theorem init_declined htmlToText send parse (fuel : nat) (w : world)
    (info : csv_info) (usedTokens : list string) :
  truthy (of_option (configFile w !! "SUBJECT_LINE")) = true ->
  truthy (of_option (configFile w !! "FROM_NAME")) = true ->
  truthy (of_option (configFile w !! "FROM_ADDRESS")) = true ->
  getCsvInfo parse (csvFile w) = Resolved info ->
  "Email" ∈ columnNames info ->
  check_template (ToString (of_option (configFile w !! "SUBJECT_LINE")))
                 (templateFile w) (columnNames info) = Normal usedTokens ->
  confirmed w = false ->
  SendEmails.init htmlToText send parse fuel w = Some (Normal Exited)
  /\ Part001.init htmlToText send parse fuel w = Some (Normal Exited).
Proof.
  intros Hs Hn Ha Hinfo Hin Htpl Hconf.
  assert (Hidx : (indexOf (columnNames info) "Email" =? -1) = false).
  { apply Z.eqb_neq. intros E. apply indexOf_absent in E. contradiction. }
  unfold SendEmails.init, Part001.init, init_with. cbv zeta beta.
  rewrite Hs, Hn, Ha. cbn [negb orb]. rewrite Hinfo, Hidx, Htpl, Hconf.
  split; reflexivity.
Qed.

Lemma init_declined_witness :
  let w := {| configFile := base_config;
              csvFile := whole_file seven_records;
              templateFile := "<p>Dear @Name@</p>";
              confirmed := false |} in
  Part001.init id accepted csv_plain 8 w = Some (Normal Exited).
Proof.
  intros w.
  apply (proj2 (init_declined id accepted csv_plain 8 w seven_info
                  ["@Name@"; "@Name@"]
                  eq_refl eq_refl eq_refl ltac:(vm_compute; reflexivity)
                  ltac:(absent) ltac:(vm_compute; reflexivity) eq_refl)).
Defined.

(** X21.  Without a pause configured no batch waits: in sendEmails.js when
    THROTTLE is missing or empty, in part_001 when [parseInt] makes no number
    or 0 of it.  sendEmails.js takes every non-empty setting for a pause, a
    [0] or a word too, and hands that string to the timer before each
    batch. *)
Theorem no_throttle_no_delay htmlToText send parse (fuel : nat) (w : world)
    (batches : list batch_run) :
  (truthy (of_option (configFile w !! "THROTTLE")) = false ->
   completed (SendEmails.init htmlToText send parse fuel w) = Some batches ->
   Forall (fun b => b_delay b = None) batches)
  /\ (parseInt (of_option (configFile w !! "THROTTLE")) = None
      \/ parseInt (of_option (configFile w !! "THROTTLE")) = Some 0 ->
      completed (Part001.init htmlToText send parse fuel w) = Some batches ->
      Forall (fun b => b_delay b = None) batches)
  /\ (forall s, configFile w !! "THROTTLE" = Some s -> s <> EmptyString ->
      completed (SendEmails.init htmlToText send parse fuel w) = Some batches ->
      Forall (fun b => b_delay b = Some (JStr s)) batches).
Proof.
  split; [|split].
  - intros Hf Hc. apply init_with_batches in Hc as [Hd _].
    unfold SendEmails.read_setting, js_or in Hd. rewrite Hf in Hd.
    exact Hd.
  - intros Hp Hc. apply init_with_batches in Hc as [Hd _].
    unfold Part001.read_setting, js_or in Hd.
    destruct Hp as [Hp | Hp]; rewrite Hp in Hd; exact Hd.
  - intros s Hs Hne Hc. apply init_with_batches in Hc as [Hd _].
    rewrite Hs in Hd. unfold SendEmails.read_setting, js_or in Hd.
    assert (Ht : truthy (of_option (Some s)) = true)
      by (destruct s; [contradiction | reflexivity]).
    rewrite Ht in Hd. cbn [of_option] in Hd. simpl truthy in Hd.
    destruct s; [contradiction | exact Hd].
Qed.

Lemma no_throttle_no_delay_witness :
  Forall (fun b => b_delay b = None)
    (default [] (completed
       (Part001.init id accepted csv_plain 8
          (seven_world (<["THROTTLE" := "soon"]> base_config))))).
Proof.
  apply (proj1 (proj2 (no_throttle_no_delay id accepted csv_plain 8
                         (seven_world (<["THROTTLE" := "soon"]> base_config)) _))
           ltac:(left; reflexivity)).
  vm_compute. reflexivity.
Defined.

(** ** part_000 *)

Lemma Part000_sendOneEmail_settle htmlToText send (config : Part000Script.send_config) :
  Part000Script.sendOneEmail htmlToText send config
  = Normal (settle (send (Part000Script.messageObject htmlToText config))).
Proof.
  unfold Part000Script.sendOneEmail, settle.
  destruct (send _) as [[[r|] reject]|e]; simpl; try reflexivity.
  - destruct (truthy reject); [reflexivity|].
    simpl. destruct (statusCode r =? 202); reflexivity.
  - destruct (truthy reject); reflexivity.
Qed.

Section Part000Loop.

Variable htmlToText : string -> string.
Variable send : Part000Script.message -> completion (option response * jsval).
Variables (w : world) (info : csv_info) (subject : string).
Variable (csv : list (list string)).

Hypothesis subject_line : configFile w !! "SUBJECT_LINE" = Some subject.

Let run0 :=
  Part000Script.run htmlToText send (configFile w) (columnNames info)
    (recordCount info) (indexOf (columnNames info) "Email") (templateFile w) csv.

(** The loop takes the rows in order and stops with a TypeError at the
    first index that has no row. *)
Lemma Part000_run_rows (k : nat) :
  forall i, 0 <= i ->
    run0 (seqZ i (Z.of_nat k))
    = (imap (fun j row => step_for htmlToText send w info subject
                                   (i + Z.of_nat j) row)
            (take k (drop (Z.to_nat i) csv)),
       if decide (length (drop (Z.to_nat i) csv) < k)%nat
       then Some undefined_record else None).
Proof.
  unfold run0. induction k as [|k IH]; intros i Hi.
  - cbn. rewrite decide_False by lia. reflexivity.
  - rewrite seqZ_cons by lia.
    replace (Z.pred (Z.of_nat (S k))) with (Z.of_nat k) by lia.
    cbn [Part000Script.run]. unfold Part000Script.send_record, arr_get.
    replace (i <? 0) with false by (symmetry; apply Z.ltb_ge; lia).
    destruct (csv !! Z.to_nat i) as [row|] eqn:Hrow.
    + rewrite subject_line. cbn [of_option Part000Script.replaceTokens_of].
      cbn [mbind completion_bind].
      rewrite Part000_sendOneEmail_settle. cbn [mbind completion_bind].
      rewrite IH by lia.
      rewrite (drop_S _ _ _ Hrow). cbn [take length].
      replace (Z.to_nat (Z.succ i)) with (S (Z.to_nat i)) by lia.
      rewrite imap_cons. f_equal.
      * f_equal.
        -- unfold step_for. rewrite Z.add_0_r. reflexivity.
        -- apply imap_ext. intros j r _. cbn.
           replace (Z.succ i + Z.of_nat j) with (i + Z.of_nat (S j)) by lia.
           reflexivity.
      * destruct (decide (length (drop (S (Z.to_nat i)) csv) < k)%nat);
          [rewrite decide_True by lia | rewrite decide_False by lia];
          reflexivity.
    + apply lookup_ge_None in Hrow. rewrite drop_ge by lia.
      cbn. reflexivity.
Qed.

End Part000Loop.

(** X22.  part_000 with a subject line, once its checks are passed: the
    loop takes the rows behind the header in order, one send after the
    other, as far as [recordCount] and the parsed rows go; each step holds
    the message built from the row, what the send settled with and the
    matching report line.  When [recordCount] reaches past the parsed rows,
    the loop ends with a TypeError after the rows that are there have been
    sent; otherwise it ends normally. *)
Theorem Part000_init_rows htmlToText send parse (w : world) (info : csv_info)
    (subject : string) (usedTokens : list string) (csv : list (list string)) :
  configFile w !! "SUBJECT_LINE" = Some subject ->
  getCsvInfo parse (csvFile w) = Resolved info ->
  "Email" ∈ columnNames info ->
  check_template subject (templateFile w) (columnNames info) = Normal usedTokens ->
  confirmed w = true ->
  parse (string_of_list_byte (concat (chunks (csvFile w)))) = Normal csv ->
  Part000Script.init htmlToText send parse w
  = Normal (Part000Script.Ran
              (imap (fun j row => step_for htmlToText send w info subject
                                           (1 + Z.of_nat j) row)
                    (take (Z.to_nat (recordCount info)) (drop 1 csv)))
              (if decide (length csv - 1 < Z.to_nat (recordCount info))%nat
               then Some undefined_record else None)).
Proof.
  intros Hsub Hinfo Hin Htpl Hconf Hcsv.
  assert (Hidx : (indexOf (columnNames info) "Email" =? -1) = false).
  { apply Z.eqb_neq. intros E. apply indexOf_absent in E. contradiction. }
  unfold Part000Script.init. cbv zeta.
  rewrite Hinfo, Hidx, Hsub. cbn [of_option ToString].
  rewrite Htpl, Hconf. cbn [negb]. rewrite Hcsv.
  destruct (Z.le_gt_cases (recordCount info) 0) as [Hn|Hn].
  - rewrite seqZ_nil by lia. cbn [Part000Script.run].
    replace (Z.to_nat (recordCount info)) with 0%nat by lia.
    rewrite decide_False by lia. reflexivity.
  - replace (recordCount info) with (Z.of_nat (Z.to_nat (recordCount info)))
      at 2 by lia.
    rewrite (Part000_run_rows htmlToText send w info subject csv Hsub _ 1)
      by lia.
    change (Z.to_nat 1) with 1%nat. rewrite length_drop. reflexivity.
Qed.

Lemma Part000_init_rows_witness :
  let w := {| configFile := base_config;
              csvFile := whole_file "Name,Email
r1,r1@x.org
";
              templateFile := "<p>Dear @Name@</p>";
              confirmed := true |} in
  let info := {| columnNames := ["Name"; "Email"]; recordCount := 1 |} in
  Part000Script.init id accepted0 csv_plain w
  = Normal (Part000Script.Ran
              [step_for id accepted0 w info "Hi @Name@" 1 ["r1"; "r1@x.org"]]
              None).
Proof.
  intros w info.
  apply (Part000_init_rows id accepted0 csv_plain w info "Hi @Name@"
           ["@Name@"; "@Name@"] [["Name"; "Email"]; ["r1"; "r1@x.org"]]
           eq_refl eq_refl ltac:(absent) eq_refl eq_refl eq_refl).
Defined.

(** X23.  part_000 does not check the config file: without SUBJECT_LINE the
    template check runs on the text [undefined] followed by the template,
    and when it passes and the operator confirms, the first turn of the loop
    throws the TypeError of [replace] on [undefined]: nothing is sent. *)
Theorem Part000_init_no_subject htmlToText send parse (w : world) (info : csv_info)
    (usedTokens : list string) (csv : list (list string)) :
  configFile w !! "SUBJECT_LINE" = None ->
  getCsvInfo parse (csvFile w) = Resolved info ->
  "Email" ∈ columnNames info ->
  check_template "undefined" (templateFile w) (columnNames info)
  = Normal usedTokens ->
  confirmed w = true ->
  parse (string_of_list_byte (concat (chunks (csvFile w)))) = Normal csv ->
  1 <= recordCount info ->
  (2 <= length csv)%nat ->
  Part000Script.init htmlToText send parse w
  = Normal (Part000Script.Ran [] (Some undefined_replace)).
Proof.
  intros Hsub Hinfo Hin Htpl Hconf Hcsv Hn Hrows.
  assert (Hidx : (indexOf (columnNames info) "Email" =? -1) = false).
  { apply Z.eqb_neq. intros E. apply indexOf_absent in E. contradiction. }
  unfold Part000Script.init. cbv zeta.
  rewrite Hinfo, Hidx, Hsub. cbn [of_option ToString].
  rewrite Htpl, Hconf. cbn [negb]. rewrite Hcsv.
  rewrite seqZ_cons by lia. cbn [Part000Script.run].
  unfold Part000Script.send_record, arr_get. cbn [Z.ltb Z.compare].
  destruct (csv !! Z.to_nat 1) as [row|] eqn:Hrow.
  - rewrite Hsub. reflexivity.
  - apply lookup_ge_None in Hrow. change (Z.to_nat 1) with 1%nat in Hrow. lia.
Qed.

Lemma Part000_init_no_subject_witness :
  Part000Script.init id accepted0 csv_plain
    {| configFile := delete "SUBJECT_LINE" base_config;
       csvFile := whole_file seven_records;
       templateFile := "<p>Dear @Name@</p>";
       confirmed := true |}
  = Normal (Part000Script.Ran [] (Some undefined_replace)).
Proof.
  apply (Part000_init_no_subject id accepted0 csv_plain _ seven_info
           ["@Name@"] seven_rows);
    first [ vm_compute; reflexivity | absent | cbn; lia | simpl; lia ].
Defined.

(** ** Set-up *)

(** X24.  When the set-up of sendEmails.js and part_001 succeeds, the API
    key is set, the provider answered the key test with status 200, the
    names are those [file_names] makes of the command line, and all three
    files exist. *)
Theorem set_up_ok (env : environment) (names : string * string * string) :
  set_up env = Normal names ->
  truthy (SENDGRID_API_KEY env) = true
  /\ (exists r body,
        key_test env (ToString (SENDGRID_API_KEY env)) = Normal (Some r, body)
        /\ statusCode r = 200)
  /\ file_names (argv env) = Normal names
  /\ existsSync env (names.1.1) = true
  /\ existsSync env (names.1.2) = true
  /\ existsSync env (names.2) = true.
Proof.
  unfold set_up.
  destruct (truthy (SENDGRID_API_KEY env)); [|discriminate]. cbn [negb].
  destruct (key_test env _) as [[[r|] body]|e]; cbn; try discriminate.
  destruct (Z.eqb_spec (statusCode r) 200) as [Hst|]; cbn; [|discriminate].
  destruct (file_names (argv env)) as [[[a b] c]|e]; cbn; [|discriminate].
  destruct (existsSync env a) eqn:Ha; cbn; [|discriminate].
  destruct (existsSync env b) eqn:Hb; cbn; [|discriminate].
  destruct (existsSync env c) eqn:Hc; cbn; [|discriminate].
  intros H. injection H as <-. cbn.
  repeat split; eauto.
Qed.

Lemma set_up_ok_witness :
  let env := {| SENDGRID_API_KEY := JStr "k";
                key_test := fun _ => Normal (Some {| statusCode := 200;
                                                     headers := ∅ |}, JUndef);
                argv := ["node"; "sendEmails.js"; "june"];
                existsSync := fun _ => true |} in
  let names := ("config/june.env", "data/june.csv", "templates/june.html") in
  set_up env = Normal names
  /\ truthy (SENDGRID_API_KEY env) = true
  /\ (exists r body,
        key_test env (ToString (SENDGRID_API_KEY env)) = Normal (Some r, body)
        /\ statusCode r = 200)
  /\ file_names (argv env) = Normal names
  /\ existsSync env (names.1.1) = true
  /\ existsSync env (names.1.2) = true
  /\ existsSync env (names.2) = true.
Proof.
  intros env names. split; [reflexivity|].
  exact (set_up_ok env names eq_refl).
Defined.

(** X25.  A key test that does not come back with status 200, be it an
    exception, an answer without a response or another status, ends the
    set-up with the one error of the key test, whatever the command line. *)
Theorem set_up_key_test_fails (env : environment) :
  truthy (SENDGRID_API_KEY env) = true ->
  match key_test env (ToString (SENDGRID_API_KEY env)) with
  | Normal (Some r, _) => statusCode r <> 200
  | _ => True
  end ->
  set_up env = Throw key_test_error.
Proof.
  intros Hkey Htest. unfold set_up. rewrite Hkey. cbn [negb].
  destruct (key_test env _) as [[[r|] body]|e]; cbn; try reflexivity.
  apply Z.eqb_neq in Htest. rewrite Htest. reflexivity.
Qed.

Lemma set_up_key_test_fails_witness :
  let env := {| SENDGRID_API_KEY := JStr "k";
                key_test := fun _ => Normal (Some {| statusCode := 401;
                                                     headers := ∅ |}, JUndef);
                argv := ["node"; "sendEmails.js"; "june"];
                existsSync := fun _ => true |} in
  set_up env = Throw key_test_error.
Proof.
  intros env. apply (set_up_key_test_fails env eq_refl). cbn. lia.
Defined.

(** X26.  The file names of sendEmails.js extend those of part_000: a
    command line that part_000 accepts gives the same three names in
    sendEmails.js, and a command line with the one argument [base], which
    part_000 rejects, gives the three default places for [base]. *)
Theorem file_names_extend (args : list string) :
  (forall names, Part000Script.file_names args = Normal names ->
                 file_names args = Normal names)
  /\ (forall base, args !! 2%nat = Some base -> base <> EmptyString ->
        truthy (of_option (args !! 3%nat)) = false ->
        truthy (of_option (args !! 4%nat)) = false ->
        Part000Script.file_names args = Throw arguments_error
        /\ file_names args
           = Normal ("config/" +:+ base +:+ ".env", "data/" +:+ base +:+ ".csv",
                     "templates/" +:+ base +:+ ".html")).
Proof.
  split.
  - unfold Part000Script.file_names, file_names. intros names.
    destruct (truthy (of_option (args !! 2%nat)));
      destruct (truthy (of_option (args !! 3%nat)));
      destruct (truthy (of_option (args !! 4%nat))); cbn; congruence.
  - intros base Hb Hne H3 H4.
    unfold Part000Script.file_names, file_names. rewrite Hb, H3, H4.
    assert (Ht : truthy (of_option (Some base)) = true)
      by (destruct base; [contradiction | reflexivity]).
    rewrite Ht. cbn. split; reflexivity.
Qed.

Lemma file_names_extend_witness :
  Part000Script.file_names ["node"; "sendEmails.js"; "june"] = Throw arguments_error
  /\ file_names ["node"; "sendEmails.js"; "june"]
     = Normal ("config/june.env", "data/june.csv", "templates/june.html").
Proof.
  apply (proj2 (file_names_extend ["node"; "sendEmails.js"; "june"]) "june"
           eq_refl ltac:(discriminate) eq_refl eq_refl).
Defined.

(** ** From the file to the messages *)

(** X27.  For a CSV file in which every line ends in a line feed and of
    which the parser finds every row, part_001 with a CONCURRENCY that reads
    as [c >= 1] counts the rows right and, when the checks pass, sends every
    row behind the header exactly once, in order, in batches of [c] of which
    only the last may be shorter. *)
Theorem every_row_sent htmlToText send parse (fuel : nat) (w : world)
    (info : csv_info) (csv : list (list string))
    (header : list byte) (rows : list (list byte)) (c : Z) :
  reaches_loop parse w info csv ->
  concat (chunks (csvFile w)) = terminated (header :: rows) ->
  LF ∉ header ->
  Forall (fun row => LF ∉ row) rows ->
  length csv = S (length rows) ->
  parseInt (of_option (configFile w !! "CONCURRENCY")) = Some c ->
  1 <= c ->
  (length rows < fuel)%nat ->
  recordCount info = Z.of_nat (length rows)
  /\ exists batches groups,
       Part001.init htmlToText send parse fuel w = Some (Normal (Completed batches))
       /\ partitioned (Z.to_nat c) (drop 1 csv) groups
       /\ map b_sends batches = map (map (message_for htmlToText w info)) groups.
Proof.
  intros Hreach Hfile Hh Hrows Hlen Hc Hc1 Hfuel.
  assert (Hcount : recordCount info = Z.of_nat (length rows)).
  { destruct Hreach as (_ & _ & _ & Hinfo & _).
    rewrite (getCsvInfo_resolved_line_feeds _ _ _ Hinfo), Hfile.
    rewrite count_LF_terminated by (constructor; assumption).
    simpl length. lia. }
  split; [exact Hcount|].
  unfold Part001.init.
  rewrite (init_with_checked htmlToText send parse Value Part001.read_setting
             fuel w info csv Hreach).
  assert (Hread : Part001.read_setting
                    (of_option (configFile w !! "CONCURRENCY"))
                    defaults_concurrency = JNum c).
  { unfold Part001.read_setting, js_or. rewrite Hc. simpl.
    destruct (Z.eqb_spec c 0); [lia | reflexivity]. }
  rewrite Hread.
  destruct (loop_partition htmlToText send Value
              (ToString (of_option (configFile w !! "SUBJECT_LINE")))
              (ToString (of_option (configFile w !! "FROM_NAME")))
              (ToString (of_option (configFile w !! "FROM_ADDRESS")))
              (Part001.read_setting (of_option (configFile w !! "THROTTLE"))
                                    defaults_throttle)
              c (columnNames info) (recordCount info)
              (indexOf (columnNames info) "Email") (templateFile w) csv
              Hc1 ltac:(lia) fuel 1 ltac:(lia) ltac:(lia))
    as (bs & groups & -> & Hsends & Hp).
  exists bs, groups. repeat split; assumption.
Qed.

Lemma every_row_sent_witness :
  let w := seven_world (<["CONCURRENCY" := "3"]> base_config) in
  recordCount seven_info = 7
  /\ exists batches groups,
       Part001.init id fails_for_r4 csv_plain 8 w = Some (Normal (Completed batches))
       /\ partitioned 3 (drop 1 seven_rows) groups
       /\ map b_sends batches = map (map (message_for id w seven_info)) groups.
Proof.
  intros w.
  apply (every_row_sent id fails_for_r4 csv_plain 8 w seven_info seven_rows
           (bytes "Name,Email")
           [bytes "r1,r1@x.org"; bytes "r2,r2@x.org"; bytes "r3,r3@x.org";
            bytes "r4,r4@x.org"; bytes "r5,r5@x.org"; bytes "r6,r6@x.org";
            bytes "r7,r7@x.org"] 3
           ltac:(reach) eq_refl ltac:(absent) ltac:(repeat constructor; absent)
           eq_refl eq_refl ltac:(lia) ltac:(simpl; lia)).
Defined.

(** ** A failed send in sendEmails.js *)

(** C2 (fails on the code).  In sendEmails.js a send that throws, or that
    the provider answers with a status other than 202, does not abort the
    run: with any other provider the run ends the same way and hands over the
    same messages.  But the failure is not recorded: [sendOneEmail] settles
    with [false], the result of [Promise.all] is dropped, and the report
    line of that very message is a success line whose id is the text of a
    promise. *)
Theorem send_failure_reported_as_sent htmlToText send send' parse (fuel : nat)
    (w : world) :
  attempted (SendEmails.init htmlToText send parse fuel w)
  = attempted (SendEmails.init htmlToText send' parse fuel w)
  /\ forall batches,
       completed (SendEmails.init htmlToText send parse fuel w) = Some batches ->
       Forall (fun b =>
                 forall (k : nat) (m : message),
                   b_sends b !! k = Some m ->
                   (exists e, send m = Throw e)
                   \/ (exists r reject, send m = Normal (Some r, reject)
                                        /\ statusCode r <> 202) ->
                   b_outcomes b !! k = Some (JBool false)
                   /\ exists index total address,
                        b_reports b !! k
                        = Some (Sent index total address "[object Promise]"))
              batches.
Proof.
  split; [apply init_with_attempts|].
  intros batches. unfold SendEmails.init.
  destruct (init_with_cases htmlToText parse Promise SendEmails.read_setting w)
    as [(r & Hshape & Hr) | (s & n & a & c & count & e & csv & H)].
  - rewrite Hr. destruct Hshape as [-> | [x ->]]; discriminate.
  - rewrite H.
    destruct (loop _ _ _ _ _ _ _ _ _ _ _ _ _ fuel _) as [[bs|x]|] eqn:Hl;
      [|discriminate..].
    intros Hc. injection Hc as <-.
    apply loop_batches in Hl. eapply Forall_impl; [exact Hl|].
    intros b [j Hb] k m Hm Hfail. cbv beta in Hb.
    destruct (batch_settles htmlToText Promise s n a
                (SendEmails.read_setting (of_option (configFile w !! "THROTTLE"))
                                         defaults_throttle)
                (SendEmails.read_setting (of_option (configFile w !! "CONCURRENCY"))
                                         defaults_concurrency)
                c count e (templateFile w) csv send j)
      as (b' & Hb' & _ & _ & _ & Ho).
    rewrite Hb in Hb'. injection Hb' as <-.
    assert (Hfalse : settle (send m) = JBool false).
    { destruct Hfail as [[x ->] | (r & reject & -> & Hst)]; [reflexivity|].
      cbn [settle]. destruct (truthy reject); [reflexivity|].
      apply Z.eqb_neq in Hst. now rewrite Hst. }
    split.
    + rewrite Ho, list_lookup_fmap, Hm. cbn. now rewrite Hfalse.
    + rewrite (batch_reports _ _ _ _ _ _ _ _ _ _ _ _ _ _ _ Hb).
      rewrite list_lookup_imap, Hm. cbn. unfold report_line. cbn. eauto.
Qed.

Lemma send_failure_reported_as_sent_witness :
  exists batches b m,
    completed (SendEmails.init id fails_for_r4 csv_plain 8 (seven_world base_config))
    = Some batches
    /\ batches !! 3%nat = Some b
    /\ b_sends b !! 0%nat = Some m
    /\ m_to m = [JStr "r4@x.org"]
    /\ fails_for_r4 m = Throw (Failure "provider")
    /\ b_outcomes b !! 0%nat = Some (JBool false)
    /\ exists index total address,
         b_reports b !! 0%nat = Some (Sent index total address "[object Promise]").
Proof.
  pose proof (proj2 (send_failure_reported_as_sent id fails_for_r4 accepted
                       csv_plain 8 (seven_world base_config))) as H.
  eexists _, _, _.
  split; [vm_compute; reflexivity|].
  split; [vm_compute; reflexivity|].
  split; [vm_compute; reflexivity|].
  split; [vm_compute; reflexivity|].
  split; [vm_compute; reflexivity|].
  specialize (H _ ltac:(vm_compute; reflexivity)).
  eapply (Forall_lookup_1 _ _ 3%nat) in H; [|vm_compute; reflexivity].
  eapply (H 0%nat); [vm_compute; reflexivity|].
  left. eexists. vm_compute. reflexivity.
Defined.
